(** * O-1A visa assessment client: upload form, processing notification and
      assessment renderer.

    A shallow embedding of the React components
      - [components/assessment-result.tsx]      (module [AssessmentResult]),
      - [components/processing-notification.tsx] (module [ProcessingNotification]),
      - the upload form component [UploadForm]   (module [UploadForm]),
    together with the few ECMAScript library functions they call
    (module [JS]).

    Conventions.
      - A JavaScript string is a list of code units; the code units are
        those below 256 ([ascii]).  Every pattern used by the components
        ([\d], [\w], [\b], the literals) only distinguishes ASCII characters.
      - A JavaScript number is a binary64.  Where the code computes with
        integers read from text ([Number.parseInt]) the rounding to 53 bits
        and the overflow to [Infinity] are modelled; where a value may be
        absent or not a number ([undefined], [NaN]) that case is modelled.
        Elsewhere a finite number is a rational [Q]: the sign of a
        difference of two finite doubles is the sign of the exact
        difference, and what is proved about the progress bar and the
        percentages uses only order facts that rounding preserves.  Where an
        exact count of ticks matters, the increments are added in binary64
        (module [ProgressBinary64]).
      - [useState] cells are record fields, event handlers are functions on
        the record, and what is awaited ([fetch]) is split at the [await]. *)

From Stdlib Require Import List Bool Arith ZArith QArith Qround Lia Lqa.
From Stdlib Require Import Ascii String DecimalString DecimalNat.
From Stdlib Require Import Sorted Permutation.
From Stdlib Require Import Floats.
Import ListNotations.

Set Implicit Arguments.

(* ================================================================== *)
(** * ECMAScript library functions used by the components              *)
(* ================================================================== *)

Module JS.

(** A string value, as a sequence of code units. *)
Definition str := list ascii.

(** String literal. *)
Definition lit (s : string) : str := list_ascii_of_string s.

Definition code (c : ascii) : nat := nat_of_ascii c.

Definition between (lo hi : nat) (c : ascii) : bool :=
  (lo <=? code c)%nat && (code c <=? hi)%nat.

(** [\d] *)
Definition isDigit (c : ascii) : bool := between 48 57 c.

Definition isUpper (c : ascii) : bool := between 65 90 c.
Definition isLower (c : ascii) : bool := between 97 122 c.

(** [\w] is [[A-Za-z0-9_]]: the underscore is a word character. *)
Definition isWordChar (c : ascii) : bool :=
  isUpper c || isLower c || isDigit c || (code c =? 95)%nat.

(** [c.toUpperCase()] for a one-character string [c] matched by [\w]:
    only the letters a-z change. *)
Definition toUpperCaseChar (c : ascii) : ascii :=
  if isLower c then ascii_of_nat (code c - 32) else c.

(** [String.prototype.toLowerCase] on one code unit below 256: A-Z and the
    Latin-1 capitals U+00C0..U+00DE (but not the sign U+00D7) move up by
    32. *)
Definition toLowerCaseChar (c : ascii) : ascii :=
  if isUpper c || (between 192 222 c && negb (code c =? 215)%nat)
  then ascii_of_nat (code c + 32) else c.

Definition toLowerCase (s : str) : str := map toLowerCaseChar s.

Definition str_eqb (a b : str) : bool :=
  if list_eq_dec ascii_dec a b then true else false.

(** [s] begins with [p]. *)
Fixpoint startsWith (p s : str) : bool :=
  match p, s with
  | [], _ => true
  | _ :: _, [] => false
  | a :: p', b :: s' => Ascii.eqb a b && startsWith p' s'
  end.

(** [s.includes(t)]: [t] occurs in [s] as a substring. *)
Fixpoint includes (s t : str) : bool :=
  startsWith t s ||
  match s with
  | [] => false
  | _ :: s' => includes s' t
  end.

(** [arr.includes(x)] for an array of strings. *)
Definition arrayIncludes (arr : list str) (x : str) : bool :=
  existsb (str_eqb x) arr.

(** [s.split(sep)] for a one-character separator: the list of the pieces
    between the separators; never empty. *)
Fixpoint split (sep : ascii) (s : str) : list str :=
  match s with
  | [] => [[]]
  | c :: s' =>
      if Ascii.eqb c sep then [] :: split sep s'
      else match split sep s' with
           | [] => [[c]]
           | piece :: pieces => (c :: piece) :: pieces
           end
  end.

(** [arr.pop()]: the last element, [undefined] ([None]) on the empty
    array. *)
Fixpoint pop (A : Type) (arr : list A) : option A :=
  match arr with
  | [] => None
  | [x] => Some x
  | _ :: arr' => pop arr'
  end.

(** Truthiness of a string: the empty string is falsy. *)
Definition truthy (s : str) : bool :=
  match s with [] => false | _ :: _ => true end.

(** [x || dflt] for an optional string [x]. *)
Definition orElse (x : option str) (dflt : str) : str :=
  match x with
  | Some s => if truthy s then s else dflt
  | None => dflt
  end.

Definition digitValue (c : ascii) : Z := Z.of_nat (code c - 48).

(** The integer that a string of decimal digits denotes. *)
Definition decimalValue (s : str) : Z :=
  fold_left (fun acc c => 10 * acc + digitValue c)%Z s 0%Z.

(** A number that is a non-negative integer or [Infinity]. *)
Inductive integer :=
| Int (z : Z)
| IntInfinity.

(** The binary64 nearest to a non-negative integer [z]: [z] itself below
    2^53; otherwise [z] rounded to 53 significant bits, a tie going to the
    even significand, and [Infinity] when that reaches 2^1024. *)
Definition toDouble (z : Z) : integer :=
  if (z <? 2 ^ 53)%Z then Int z
  else
    let e := (Z.log2 z - 52)%Z in
    let m := Z.shiftr z e in
    let r := (z - Z.shiftl m e)%Z in
    let half := (2 ^ (e - 1))%Z in
    let m' := if (half <? r)%Z || ((r =? half)%Z && Z.odd m)
              then (m + 1)%Z else m in
    let v := Z.shiftl m' e in
    if (2 ^ 1024 <=? v)%Z then IntInfinity else Int v.

(** [Number.parseInt(s)] for a string [s] of decimal digits: the binary64
    nearest to the integer written, every digit taken into account (as V8
    does; the standard lets an implementation ignore digits after the
    20th significant one). *)
Definition parseInt (s : str) : integer := toDouble (decimalValue s).

(** [x + y] for two such numbers: the sum, rounded. *)
Definition addIntegers (x y : integer) : integer :=
  match x, y with
  | Int a, Int b => toDouble (a + b)
  | _, _ => IntInfinity
  end.

(** A number: finite, [Infinity] or [NaN]. *)
Inductive number :=
| Num (q : Q)
| Infinity
| NaN.

(** [x / 2] for a non-negative integer or [Infinity]; halving is exact. *)
Definition halve (x : integer) : number :=
  match x with
  | Int z => Num (z # 2)
  | IntInfinity => Infinity
  end.

(** [x - y] for operands that are finite numbers or [undefined] ([None]):
    [undefined] converts to [NaN]. *)
Definition minus (x y : option Q) : number :=
  match x, y with
  | Some a, Some b => Num (a - b)
  | _, _ => NaN
  end.

(** The decimal text of a natural number, as in a template literal. *)
Definition numberToString (n : nat) : str :=
  lit (NilEmpty.string_of_uint (Nat.to_uint n)).

(** [Math.min] *)
Definition min (x y : Q) : Q := if Qle_bool x y then x else y.

(** [Math.round]: the nearest integer, halves upwards. *)
Definition round (x : Q) : Z := Qfloor (x + (1 # 2)).

(** How the sort reads a result [v] of [comparefn(x, y)]: [x] goes after
    [y] only for a positive [v]; a [NaN] counts as [+0]. *)
Definition notPositive (v : number) : bool :=
  match v with
  | Num q => Qle_bool q 0
  | Infinity => false
  | NaN => true
  end.

(** [Array.prototype.sort(comparefn)].  The sort is stable: an element
    goes before the first one that [comparefn] does not put strictly
    before it, and elements that compare equal keep their order. *)
Section Sort.
Variable A : Type.
Variable comparefn : A -> A -> number.

Fixpoint insert (x : A) (l : list A) : list A :=
  match l with
  | [] => [x]
  | y :: l' =>
      if notPositive (comparefn x y) then x :: y :: l'
      else y :: insert x l'
  end.

Fixpoint sort (l : list A) : list A :=
  match l with
  | [] => []
  | x :: l' => insert x (sort l')
  end.
End Sort.

End JS.

(* ================================================================== *)
(** * components/assessment-result.tsx                                  *)
(* ================================================================== *)

Module AssessmentResult.
Import JS.

(** ** The payload of [POST /api/analyze], as the component reads it.
    A field that may be absent is an [option]. *)

Record Criterion := {
  confidence : option Q;
  weight : option Q;
  evaluation : option str;
  matches : list str;
  strong_examples_matched : list str
}.

(** A red flag arrives as a string or as an object with a [flag] field. *)
Inductive RedFlag :=
| FlagString (text : str)
| FlagObject (flag : str).

Record VisaRequirements := {
  eligibility_threshold : option str;
  exception : option str;
  petition_requirements : list str;
  fees : list (str * str);
  visa_duration : list (str * str)
}.

(** [detailed_assessment] is an object used as a map from criterion name
    to evaluation; it is kept as the list of its entries in property
    order, which is what [Object.entries] returns. *)
Record Assessment := {
  qualification_rating : option str;
  approval_chance : option str;
  profile_type : option str;
  field_type : option str;
  criteria_met_count : option nat;
  detailed_assessment : option (list (str * Criterion));
  application_recommendations : option (list str);
  red_flags : option (list RedFlag);
  visa_requirements : option VisaRequirements
}.

Record Payload := {
  status : option str;
  message : option str;
  assessment : option Assessment
}.

(** ** Derived display values *)

(** [s.replace(/\b\w/g, c => c.toUpperCase())].  [\b\w] matches a word
    character that has no word character before it; [prevWord] says
    whether the previous character was a word character. *)
Fixpoint capitalizeFrom (prevWord : bool) (s : str) : str :=
  match s with
  | [] => []
  | c :: s' =>
      (if isWordChar c && negb prevWord then toUpperCaseChar c else c)
        :: capitalizeFrom (isWordChar c) s'
  end.

Definition capitalizeWords (s : str) : str := capitalizeFrom false s.

(** [s.replace(/_/g, " ")] *)
Definition underscoresToSpaces (s : str) : str :=
  map (fun c => if Ascii.eqb c "_" then " "%char else c) s.

(** Line 48:
    [assessment.field_type?.replace(/\b\w/g, ...) || "Unknown"]. *)
Definition fieldType (a : Assessment) : str :=
  orElse (option_map capitalizeWords (field_type a)) (lit "Unknown").

(** Lines 341 and 355, the labels of fees and visa durations:
    [name.replace(/_/g, " ").replace(/\b\w/g, ...)]. *)
Definition formatLabel (name : str) : str :=
  capitalizeWords (underscoresToSpaces name).

(** Line 44. *)
Definition rating (a : Assessment) : str :=
  orElse (option_map toLowerCase (qualification_rating a)) (lit "unknown").

(** Line 45. *)
Definition approvalChance (a : Assessment) : str :=
  orElse (approval_chance a) (lit "Unknown").

(** Line 57:
    [Object.entries(detailedAssessment)
       .sort((a, b) => b[1].confidence - a[1].confidence)]. *)
Definition byConfidence (a b : str * Criterion) : number :=
  minus (confidence (snd b)) (confidence (snd a)).

Definition sortedCriteria (detailedAssessment : list (str * Criterion))
  : list (str * Criterion) :=
  sort byConfidence detailedAssessment.

(** ** The regular expression [/(\d+)-(\d+)%/] *)

(** The longest prefix of digits, and what follows it: [\d+] is greedy. *)
Fixpoint spanDigits (s : str) : str * str :=
  match s with
  | c :: s' =>
      if isDigit c then let (ds, rest) := spanDigits s' in (c :: ds, rest)
      else ([], s)
  | [] => ([], [])
  end.

(** A match that starts at the first character of [s]; the two capture
    groups.  Giving a digit back never helps, since what must follow a
    group ([-] or [%]) is not a digit. *)
Definition percentageAt (s : str) : option (str * str) :=
  match spanDigits s with
  | ((_ :: _) as lo, c1 :: r1) =>
      if Ascii.eqb c1 "-" then
        match spanDigits r1 with
        | ((_ :: _) as hi, c2 :: _) =>
            if Ascii.eqb c2 "%" then Some (lo, hi) else None
        | _ => None
        end
      else None
  | _ => None
  end.

(** [approvalChance.match(/(\d+)-(\d+)%/)]: the leftmost match. *)
Fixpoint percentageMatch (s : str) : option (str * str) :=
  match percentageAt s with
  | Some groups => Some groups
  | None =>
      match s with
      | [] => None
      | _ :: s' => percentageMatch s'
      end
  end.

(** Lines 108-119. *)
Definition getApprovalPercentage (approvalChance : str) : number :=
  match percentageMatch approvalChance with
  | Some (min, max) => halve (addIntegers (parseInt min) (parseInt max))
  | None =>
      if includes approvalChance (lit "High") then Num 90
      else if includes approvalChance (lit "Medium") then Num 60
      else if includes approvalChance (lit "Low") then Num 30
      else Num 50
  end.

(** ** What the component renders *)

(** One card of the "Criteria" tab (lines 171-250). *)
Record CriterionCard := {
  cardName : str;
  cardConfidence : Q;
  confidencePct : Z;
  cardWeight : Q;
  cardEvaluation : option str;
  evidenceShown : list str;
  evidenceMore : nat
}.

(** Line 220: a snippet longer than 300 characters is cut and followed by
    three dots. *)
Definition snippet (m : str) : str :=
  if (300 <? List.length m)%nat then firstn 300 m ++ lit "..." else m.

(** Line 172: [criterion.confidence || 0]. *)
Definition confidenceOrZero (criterion : Criterion) : Q :=
  match confidence criterion with
  | Some c => c
  | None => 0
  end.

Definition criterionCard (entry : str * Criterion) : CriterionCard :=
  let (name, criterion) := entry in
  let c := confidenceOrZero criterion in
  {| cardName := name;
     cardConfidence := c;
     confidencePct := round (c * 100);
     cardWeight := match weight criterion with
                   | Some w => if Qeq_bool w 0 then 1 else w
                   | None => 1
                   end;
     cardEvaluation := evaluation criterion;
     evidenceShown := map snippet (firstn 3 (matches criterion));
     evidenceMore := List.length (matches criterion) - 3 |}.

(** Line 288: [typeof flag === "object" ? flag.flag : flag]. *)
Definition flagText (f : RedFlag) : str :=
  match f with
  | FlagString text => text
  | FlagObject flag => flag
  end.

Definition labelled (entries : list (str * str)) : list (str * str) :=
  map (fun e => (formatLabel (fst e), snd e)) entries.

Record ResultsView := {
  badge : str;
  approvalChanceText : str;
  approvalProgress : number;
  profileTypeText : option str;
  fieldTypeText : str;
  criteriaMet : nat;
  criteriaCards : list CriterionCard;
  recommendationItems : list str;
  redFlagItems : list str;
  feeItems : list (str * str);
  durationItems : list (str * str)
}.

Inductive View :=
| AnalysisFailed (description : str)
| Results (view : ResultsView)
| RenderError.

Definition orEmpty (A : Type) (x : option (list A)) : list A :=
  match x with Some l => l | None => [] end.

Definition renderAssessment (a : Assessment) : ResultsView :=
  {| badge := rating a;
     approvalChanceText := approvalChance a;
     approvalProgress := getApprovalPercentage (approvalChance a);
     profileTypeText := profile_type a;
     fieldTypeText := fieldType a;
     criteriaMet := match criteria_met_count a with Some n => n | None => 0%nat end;
     criteriaCards :=
       map criterionCard (sortedCriteria (orEmpty (detailed_assessment a)));
     recommendationItems := orEmpty (application_recommendations a);
     redFlagItems := map flagText (orEmpty (red_flags a));
     feeItems :=
       labelled (orEmpty (option_map fees (visa_requirements a)));
     durationItems :=
       labelled (orEmpty (option_map visa_duration (visa_requirements a))) |}.

(** [result?.message || "Unable to process the CV file"] (line 36). *)
Definition failureDescription (result : option Payload) : str :=
  orElse (match result with Some r => message r | None => None end)
         (lit "Unable to process the CV file").

(** [result.status !== "success"] *)
Definition statusIsSuccess (r : Payload) : bool :=
  match status r with
  | Some s => str_eqb s (lit "success")
  | None => false
  end.

(** The component (lines 27-372).  [result] is [None] for [null] or
    [undefined].  A payload that says "success" and carries no assessment
    makes line 44 read a property of [undefined], which throws. *)
Definition AssessmentResult (result : option Payload) : View :=
  match result with
  | None => AnalysisFailed (failureDescription result)
  | Some r =>
      if negb (statusIsSuccess r) then AnalysisFailed (failureDescription result)
      else match assessment r with
           | Some a => Results (renderAssessment a)
           | None => RenderError
           end
  end.

(** The names of the criteria cards a view shows, in order. *)
Definition renderedCriteria (v : View) : list CriterionCard :=
  match v with
  | Results view => criteriaCards view
  | AnalysisFailed _ | RenderError => []
  end.

(** ** Badges, icons and colours *)

Inductive BadgeVariant :=
| VariantDefault
| VariantSecondary
| VariantOutline
| VariantDestructive.

(** The lucide icons the component uses. *)
Inductive Lucide :=
| CheckCircle2 | XCircle | AlertCircle | Award | BookOpen | Trophy
| DollarSign | Gavel | Briefcase | Users | Newspaper | Lightbulb | FileText.

(** Lines 59-71. *)
Definition getBadgeVariant (rating : str) : BadgeVariant :=
  if str_eqb rating (lit "high") || str_eqb rating (lit "excellent")
  then VariantDefault
  else if str_eqb rating (lit "good") then VariantSecondary
  else if str_eqb rating (lit "moderate") then VariantOutline
  else VariantDestructive.

(** Lines 73-84. *)
Definition getIcon (rating : str) : Lucide :=
  if str_eqb rating (lit "high") || str_eqb rating (lit "excellent")
     || str_eqb rating (lit "good")
  then CheckCircle2
  else if str_eqb rating (lit "moderate") then AlertCircle
  else XCircle.

(** Lines 86-99. *)
Definition getCriterionIcon (name : str) : Lucide :=
  let lowerName := toLowerCase name in
  if includes lowerName (lit "award") then Award
  else if includes lowerName (lit "publication")
          || includes lowerName (lit "scholarly") then BookOpen
  else if includes lowerName (lit "prize")
          || includes lowerName (lit "trophy") then Trophy
  else if includes lowerName (lit "salary")
          || includes lowerName (lit "remuneration") then DollarSign
  else if includes lowerName (lit "judg") then Gavel
  else if includes lowerName (lit "employment")
          || includes lowerName (lit "critical") then Briefcase
  else if includes lowerName (lit "membership") then Users
  else if includes lowerName (lit "press") then Newspaper
  else if includes lowerName (lit "original")
          || includes lowerName (lit "contribution") then Lightbulb
  else if includes lowerName (lit "article") then FileText
  else CheckCircle2.




(** Line 187: the weight badge is shown for a weight above 1. *)
Definition showsWeight (card : CriterionCard) : bool :=
  negb (Qle_bool (cardWeight card) 1).

End AssessmentResult.

(* ================================================================== *)
(** * components/processing-notification.tsx                           *)
(* ================================================================== *)

Module ProcessingNotification.
Import JS.

Inductive Icon := FileSearch | Clock | CheckCircle.

(** Lines 16-20. *)
Definition stages : list (Icon * str) :=
  [ (FileSearch, lit "Extracting information from your CV...");
    (Clock, lit "Analyzing against O-1A criteria...");
    (CheckCircle, lit "Finalizing assessment...") ].

(** Lines 29-31. *)
Definition totalDuration : Q := 120 * 1000.
Definition interval : Q := 500.
Definition incrementAmount : Q := (interval / totalDuration) * 100.

(** The prop [isVisible], the two [useState] cells, and whether the
    interval timer of the first effect is running. *)
Record State := {
  isVisible : bool;
  progress : Q;
  stage : nat;
  timer : bool
}.

Definition setProgress (p : Q) (s : State) : State :=
  {| isVisible := isVisible s; progress := p; stage := stage s; timer := timer s |}.

Definition setStage (n : nat) (s : State) : State :=
  {| isVisible := isVisible s; progress := progress s; stage := n; timer := timer s |}.

Definition setTimer (t : bool) (s : State) : State :=
  {| isVisible := isVisible s; progress := progress s; stage := stage s; timer := t |}.

Definition setVisible (v : bool) (s : State) : State :=
  {| isVisible := v; progress := progress s; stage := stage s; timer := timer s |}.

(** The first effect (lines 22-38), run when [isVisible] has changed. *)
Definition visibilityEffect (s : State) : State :=
  if negb (isVisible s) then setStage 0 (setProgress 0 s)
  else setTimer true s.

(** Its cleanup, [clearInterval(timer)]. *)
Definition cleanup (s : State) : State := setTimer false s.

(** The second effect (lines 40-46), run when [progress] has changed. *)
Definition stageEffect (s : State) : State :=
  if Qlt_le_dec 75 (progress s) then setStage 2 s
  else if Qlt_le_dec 30 (progress s) then setStage 1 s
  else s.

(** Effects with the dependency [progress] run only when it changed. *)
Definition afterRender (old new : State) : State :=
  if Qeq_bool (progress old) (progress new) then new else stageEffect new.

(** The callback of [setInterval] (line 34). *)
Definition onInterval (s : State) : State :=
  setProgress (min (progress s + incrementAmount) 100) s.

(** First render with the prop at [v]: both effects run. *)
Definition mount (v : bool) : State :=
  stageEffect
    (visibilityEffect
       {| isVisible := v; progress := 0; stage := 0; timer := false |}).

Inductive Event :=
| Props (v : bool)  (* the parent renders the component with [isVisible = v] *)
| Tick.             (* 500 ms have passed *)

Definition step (s : State) (e : Event) : State :=
  match e with
  | Props v =>
      if Bool.eqb v (isVisible s) then s
      else afterRender s (visibilityEffect (setVisible v (cleanup s)))
  | Tick =>
      if timer s then afterRender s (onInterval s) else s
  end.

Definition run (s : State) (es : list Event) : State := fold_left step es s.

Inductive reachable : State -> Prop :=
| reach_mount : forall v, reachable (mount v)
| reach_step : forall s e, reachable s -> reachable (step s e).

(** What is drawn (lines 48-72): nothing when hidden; otherwise the icon
    and the text of [stages[stage]] and the progress bar.  Reading [.icon]
    of a missing array element throws. *)
Inductive Rendered :=
| Hidden
| Card (icon : Icon) (text : str) (value : Q)
| Crash.

Definition render (s : State) : Rendered :=
  if negb (isVisible s) then Hidden
  else match nth_error stages (stage s) with
       | Some (icon, text) => Card icon text (progress s)
       | None => Crash
       end.

End ProcessingNotification.

(** The progress of the notification with the arithmetic of the code: the
    increment and the sums are binary64 values, each operation rounded. *)
Module ProgressBinary64.

(** Lines 29-31. *)
Definition totalDuration : float := (120 * 1000)%float.
Definition interval : float := 500%float.
Definition incrementAmount : float := ((interval / totalDuration) * 100)%float.

(** [Math.min(x, y)]: [NaN] if either is. *)
Definition min (x y : float) : float :=
  if is_nan x || is_nan y then nan
  else if (x <=? y)%float then x else y.

(** The update of line 34. *)
Definition onInterval (prev : float) : float :=
  min (prev + incrementAmount)%float 100%float.

(** The progress after [n] ticks of an episode, which starts at 0. *)
Definition progressAfter (n : nat) : float := Nat.iter n onInterval 0%float.

End ProgressBinary64.

(* ================================================================== *)
(** * The upload form component ([UploadForm])                          *)
(* ================================================================== *)

Module UploadForm.
Import JS.

Record File := {
  name : str;
  blob : list ascii
}.

Definition Payload := AssessmentResult.Payload.

(** The [useState] cells (lines 18-22). *)
Record State := {
  file : option File;
  apiUrl : str;
  isLoading : bool;
  error : option str;
  result : option Payload
}.

Definition initial : State :=
  {| file := None;
     apiUrl := lit "https://09c9-38-242-232-192.ngrok-free.app";
     isLoading := false;
     error := None;
     result := None |}.

Definition setFile (f : option File) (s : State) : State :=
  {| file := f; apiUrl := apiUrl s; isLoading := isLoading s;
     error := error s; result := result s |}.

Definition setApiUrl (u : str) (s : State) : State :=
  {| file := file s; apiUrl := u; isLoading := isLoading s;
     error := error s; result := result s |}.

Definition setIsLoading (b : bool) (s : State) : State :=
  {| file := file s; apiUrl := apiUrl s; isLoading := b;
     error := error s; result := result s |}.

Definition setError (e : option str) (s : State) : State :=
  {| file := file s; apiUrl := apiUrl s; isLoading := isLoading s;
     error := e; result := result s |}.

Definition setResult (r : option Payload) (s : State) : State :=
  {| file := file s; apiUrl := apiUrl s; isLoading := isLoading s;
     error := error s; result := r |}.

Definition unsupportedFormat : str :=
  lit "Unsupported file format. Please upload a PDF, DOCX, or TXT file.".

Definition accepted : list str := [lit "pdf"; lit "docx"; lit "txt"].

(** Line 27: [selectedFile.name.split(".").pop()?.toLowerCase()]. *)
Definition fileExt (f : File) : option str :=
  option_map toLowerCase (pop (split "." (name f))).

(** Line 29: [!fileExt || !["pdf", "docx", "txt"].includes(fileExt)]. *)
Definition rejected (f : File) : bool :=
  match fileExt f with
  | Some ext => negb (truthy ext) || negb (arrayIncludes accepted ext)
  | None => true
  end.

(** Lines 24-39.  [files] is [e.target.files]. *)
Definition handleFileChange (files : list File) (s : State) : State :=
  match files with
  | selectedFile :: _ =>
      if rejected selectedFile then
        setFile None (setError (Some unsupportedFormat) s)
      else
        setResult None (setError None (setFile (Some selectedFile) s))
  | [] => s
  end.

(** The request of lines 54-60: a POST to [`${apiUrl}/api/analyze`] whose
    form data carries the file in the field [cv_file]. *)
Record Request := {
  url : str;
  cv_file : File
}.

(** How a request ends: [fetch] rejects, or it resolves with a status and
    a body that [response.json()] either rejects with a message or parses
    to a value ([None] for the JSON value [null]). *)
Inductive Response :=
| FetchRejected (message : str)
| Received (statusCode : nat) (json : str + option Payload).

(** [response.ok] *)
Definition ok (statusCode : nat) : bool :=
  (200 <=? statusCode)%nat && (statusCode <=? 299)%nat.

(** Lines 41-60, up to the [await]: the new state and the request issued,
    if any. *)
Definition handleSubmit (s : State) : State * option Request :=
  match file s with
  | None => (setError (Some (lit "Please select a file to upload")) s, None)
  | Some f =>
      (setResult None (setError None (setIsLoading true s)),
       Some {| url := apiUrl s ++ lit "/api/analyze"; cv_file := f |})
  end.

(** Lines 62-72, after the [await]: [try], [catch] and [finally]. *)
Definition handleSubmitSettled (resp : Response) (s : State) : State :=
  let s' :=
    match resp with
    | FetchRejected message => setError (Some message) s
    | Received statusCode json =>
        if negb (ok statusCode) then
          setError
            (Some (lit "API request failed with status "
                   ++ numberToString statusCode)) s
        else
          match json with
          | inl message => setError (Some message) s
          | inr data => setResult data s
          end
    end in
  setIsLoading false s'.

(** The component together with the requests that were issued and have
    not ended yet. *)
Record World := {
  ui : State;
  inFlight : list Request
}.

Definition start : World := {| ui := initial; inFlight := [] |}.

Inductive Event :=
| FileChosen (files : list File)  (* change event of the file input *)
| ApiUrlEdited (value : str)      (* change event of the URL input *)
| SubmitPressed                   (* the user activates the submit button *)
| Settled (resp : Response).      (* the oldest request in flight ends *)

(** Line 120: [<Button type="submit" disabled={isLoading} ...>]. *)
Definition submitDisabled (s : State) : bool := isLoading s.

(** One event.  The form has a single submit button; while that button is
    disabled neither a click on it nor the Enter key in the URL field
    submits the form, so [handleSubmit] is not called. *)
Definition step (w : World) (e : Event) : World :=
  match e with
  | FileChosen files =>
      {| ui := handleFileChange files (ui w); inFlight := inFlight w |}
  | ApiUrlEdited value =>
      {| ui := setApiUrl value (ui w); inFlight := inFlight w |}
  | SubmitPressed =>
      if submitDisabled (ui w) then w
      else
        let (s, req) := handleSubmit (ui w) in
        {| ui := s;
           inFlight := inFlight w ++ match req with Some r => [r] | None => [] end |}
  | Settled resp =>
      match inFlight w with
      | [] => w
      | _ :: rest => {| ui := handleSubmitSettled resp (ui w); inFlight := rest |}
      end
  end.

Definition run (w : World) (es : list Event) : World := fold_left step es w.

Inductive reachable : World -> Prop :=
| reach_start : reachable start
| reach_step : forall w e, reachable w -> reachable (step w e).

(** What the footer shows (line 137): [{result && <AssessmentResult .../>}]. *)
Definition shownResult (s : State) : option AssessmentResult.View :=
  match result s with
  | Some r => Some (AssessmentResult.AssessmentResult (Some r))
  | None => None
  end.

End UploadForm.

(* ================================================================== *)
(** * components/resume-analyzer-animation.tsx                          *)
(* ================================================================== *)

Module ResumeAnalyzerAnimation.
Import JS.

Inductive Lucide := CheckCircle | XCircle | AlertTriangle.

(** Lines 14-21: name and status of each row. *)
Definition criteria : list (str * str) :=
  [ (lit "Awards", lit "positive");
    (lit "Publications", lit "neutral");
    (lit "Leadership", lit "positive");
    (lit "Salary", lit "negative");
    (lit "Judging", lit "neutral");
    (lit "Critical Employment", lit "positive") ].

(** The prop, the [useState] cell and whether the interval timer runs. *)
Record State := {
  isVisible : bool;
  currentCriteria : nat;
  timer : bool
}.

Definition setCurrentCriteria (n : nat) (s : State) : State :=
  {| isVisible := isVisible s; currentCriteria := n; timer := timer s |}.

Definition setTimer (t : bool) (s : State) : State :=
  {| isVisible := isVisible s; currentCriteria := currentCriteria s; timer := t |}.

Definition setVisible (v : bool) (s : State) : State :=
  {| isVisible := v; currentCriteria := currentCriteria s; timer := timer s |}.

(** The effect (lines 23-31): it starts the timer when the component is
    visible and does nothing otherwise. *)
Definition visibilityEffect (s : State) : State :=
  if negb (isVisible s) then s else setTimer true s.

Definition cleanup (s : State) : State := setTimer false s.

(** The callback of [setInterval] (line 27). *)
Definition onInterval (s : State) : State :=
  setCurrentCriteria ((currentCriteria s + 1) mod List.length criteria) s.

Definition mount (v : bool) : State :=
  visibilityEffect {| isVisible := v; currentCriteria := 0; timer := false |}.

Inductive Event :=
| Props (v : bool)  (* the parent renders the component with [isVisible = v] *)
| Tick.             (* 1500 ms have passed *)

Definition step (s : State) (e : Event) : State :=
  match e with
  | Props v =>
      if Bool.eqb v (isVisible s) then s
      else visibilityEffect (setVisible v (cleanup s))
  | Tick => if timer s then onInterval s else s
  end.

Definition run (s : State) (es : list Event) : State := fold_left step es s.

Inductive reachable : State -> Prop :=
| reach_mount : forall v, reachable (mount v)
| reach_step : forall s e, reachable s -> reachable (step s e).

(** Lines 36-45. *)
Definition getStatusIcon (status : str) : Lucide :=
  if str_eqb status (lit "positive") then CheckCircle
  else if str_eqb status (lit "negative") then XCircle
  else AlertTriangle.

(** One row of the list (lines 56-70): whether it is highlighted, its
    label and its icon, if any. *)
Record Row := {
  rowName : str;
  highlighted : bool;
  rowLabel : str;
  rowIcon : option Lucide
}.

Definition row (current index : nat) (criterion : str * str) : Row :=
  {| rowName := fst criterion;
     highlighted := (index =? current)%nat;
     rowLabel := if (index =? current)%nat then lit "Analyzing..."
                 else if (index <? current)%nat then lit "Analyzed"
                 else lit "Pending";
     rowIcon := if (index <? current)%nat
                then Some (getStatusIcon (snd criterion)) else None |}.

(** [criteria.map((criterion, index) => ...)], from index [index] on. *)
Fixpoint rowsFrom (current index : nat) (l : list (str * str)) : list Row :=
  match l with
  | [] => []
  | criterion :: l' => row current index criterion :: rowsFrom current (S index) l'
  end.

(** What is drawn: nothing when hidden (line 34). *)
Definition render (s : State) : option (list Row) :=
  if negb (isVisible s) then None
  else Some (rowsFrom (currentCriteria s) 0 criteria).

End ResumeAnalyzerAnimation.

(* ================================================================== *)
(** * The API status component ([ApiStatus]), with its own line numbers *)
(* ================================================================== *)

Module ApiStatus.
Import JS.

Inductive Status := online | offline | checking.

(** The [useState] cells (lines 12-15). *)
Record State := {
  apiUrl : str;
  status : Status;
  lastChecked : option str;
  isLoading : bool
}.

Definition initial : State :=
  {| apiUrl := lit "https://09c9-38-242-232-192.ngrok-free.app";
     status := checking;
     lastChecked := None;
     isLoading := false |}.

Definition setApiUrl (u : str) (s : State) : State :=
  {| apiUrl := u; status := status s; lastChecked := lastChecked s;
     isLoading := isLoading s |}.

Definition setStatus (st : Status) (s : State) : State :=
  {| apiUrl := apiUrl s; status := st; lastChecked := lastChecked s;
     isLoading := isLoading s |}.

Definition setLastChecked (t : option str) (s : State) : State :=
  {| apiUrl := apiUrl s; status := status s; lastChecked := t;
     isLoading := isLoading s |}.

Definition setIsLoading (b : bool) (s : State) : State :=
  {| apiUrl := apiUrl s; status := status s; lastChecked := lastChecked s;
     isLoading := b |}.

(** The GET request of lines 22-27, by its URL. *)
Record Request := { url : str }.

(** How it ends: [fetch] rejects, or resolves with a status code. *)
Inductive Response :=
| FetchRejected
| Received (statusCode : nat).

(** Lines 17-27, up to the [await]. *)
Definition checkApiStatus (s : State) : State * Request :=
  (setStatus checking (setIsLoading true s),
   {| url := apiUrl s ++ lit "/api/health" |}).

(** Lines 29-39, after the [await]; [now] is
    [new Date().toLocaleTimeString()]. *)
Definition checkApiStatusSettled (resp : Response) (now : str) (s : State)
  : State :=
  let s' :=
    match resp with
    | Received statusCode =>
        if UploadForm.ok statusCode then setStatus online s
        else setStatus offline s
    | FetchRejected => setStatus offline s
    end in
  setLastChecked (Some now) (setIsLoading false s').

Record World := {
  ui : State;
  inFlight : list Request
}.

(** The effect of lines 42-44 calls [checkApiStatus] once, after the first
    render. *)
Definition start : World :=
  let (s, req) := checkApiStatus initial in {| ui := s; inFlight := [req] |}.

Inductive Event :=
| ApiUrlEdited (value : str)
| RefreshPressed
| Settled (resp : Response) (now : str).

(** Line 83: the refresh button has [disabled={isLoading}]. *)
Definition refreshDisabled (s : State) : bool := isLoading s.

Definition step (w : World) (e : Event) : World :=
  match e with
  | ApiUrlEdited value =>
      {| ui := setApiUrl value (ui w); inFlight := inFlight w |}
  | RefreshPressed =>
      if refreshDisabled (ui w) then w
      else
        let (s, req) := checkApiStatus (ui w) in
        {| ui := s; inFlight := inFlight w ++ [req] |}
  | Settled resp now =>
      match inFlight w with
      | [] => w
      | _ :: rest =>
          {| ui := checkApiStatusSettled resp now (ui w); inFlight := rest |}
      end
  end.

Inductive reachable : World -> Prop :=
| reach_start : reachable start
| reach_step : forall w e, reachable w -> reachable (step w e).

(** The badge (lines 51-65): its variant and its text. *)
Definition badge (s : State) : AssessmentResult.BadgeVariant * str :=
  match status s with
  | online => (AssessmentResult.VariantDefault, lit "Online")
  | checking => (AssessmentResult.VariantOutline, lit "Checking...")
  | offline => (AssessmentResult.VariantDestructive, lit "Offline")
  end.

End ApiStatus.

(* ================================================================== *)
(** * The criteria catalogue component ([CriteriaInfo]), the second
      document of components/processing-notification.tsx               *)
(* ================================================================== *)

Module CriteriaInfo.
Import JS.

(** The payload of [GET /api/criteria]: an object whose property
    [criteria] maps a key to a name, a description and examples.  The
    property [criteria] of the payload is the field [entries]. *)
Record CriterionInfo := {
  name : option str;
  description : option str;
  examples : option (list str)
}.

Record Catalog := {
  entries : option (list (str * CriterionInfo))
}.

(** The [useState] cells (lines 87-90). *)
Record State := {
  apiUrl : str;
  criteria : option Catalog;
  isLoading : bool;
  error : option str
}.

Definition initial : State :=
  {| apiUrl := lit "https://09c9-38-242-232-192.ngrok-free.app";
     criteria := None;
     isLoading := false;
     error := None |}.

Definition setApiUrl (u : str) (s : State) : State :=
  {| apiUrl := u; criteria := criteria s; isLoading := isLoading s;
     error := error s |}.

Definition setCriteria (c : option Catalog) (s : State) : State :=
  {| apiUrl := apiUrl s; criteria := c; isLoading := isLoading s;
     error := error s |}.

Definition setIsLoading (b : bool) (s : State) : State :=
  {| apiUrl := apiUrl s; criteria := criteria s; isLoading := b;
     error := error s |}.

Definition setError (e : option str) (s : State) : State :=
  {| apiUrl := apiUrl s; criteria := criteria s; isLoading := isLoading s;
     error := e |}.

Record Request := { url : str }.

(** How the request ends: [fetch] rejects, or it resolves with a status
    and a body that [response.json()] rejects with a message or parses
    ([None] for the JSON value [null]). *)
Inductive Response :=
| FetchRejected (message : str)
| Received (statusCode : nat) (json : str + option Catalog).

(** Lines 92-102, up to the [await]. *)
Definition fetchCriteria (s : State) : State * Request :=
  (setError None (setIsLoading true s),
   {| url := apiUrl s ++ lit "/api/criteria" |}).

(** Lines 104-114, after the [await]. *)
Definition fetchCriteriaSettled (resp : Response) (s : State) : State :=
  let s' :=
    match resp with
    | FetchRejected message => setError (Some message) s
    | Received statusCode json =>
        if negb (UploadForm.ok statusCode) then
          setError
            (Some (lit "Failed to fetch criteria: "
                   ++ numberToString statusCode)) s
        else
          match json with
          | inl message => setError (Some message) s
          | inr data => setCriteria data s
          end
    end in
  setIsLoading false s'.

Record World := {
  ui : State;
  inFlight : list Request
}.

(** The effect of lines 117-119 calls [fetchCriteria] once, after the first
    render. *)
Definition start : World :=
  let (s, req) := fetchCriteria initial in {| ui := s; inFlight := [req] |}.

Inductive Event :=
| ApiUrlEdited (value : str)
| RefreshPressed
| Settled (resp : Response).

(** Line 138: the refresh button has [disabled={isLoading}]. *)
Definition refreshDisabled (s : State) : bool := isLoading s.

Definition step (w : World) (e : Event) : World :=
  match e with
  | ApiUrlEdited value =>
      {| ui := setApiUrl value (ui w); inFlight := inFlight w |}
  | RefreshPressed =>
      if refreshDisabled (ui w) then w
      else
        let (s, req) := fetchCriteria (ui w) in
        {| ui := s; inFlight := inFlight w ++ [req] |}
  | Settled resp =>
      match inFlight w with
      | [] => w
      | _ :: rest =>
          {| ui := fetchCriteriaSettled resp (ui w); inFlight := rest |}
      end
  end.

Inductive reachable : World -> Prop :=
| reach_start : reachable start
| reach_step : forall w e, reachable w -> reachable (step w e).

(** One accordion item (lines 155-172): the trigger text
    [value.name || key], the description, and the examples, which are
    listed only when there are some. *)
Record Item := {
  itemKey : str;
  trigger : str;
  itemDescription : option str;
  itemExamples : list str
}.

Definition item (entry : str * CriterionInfo) : Item :=
  {| itemKey := fst entry;
     trigger := orElse (name (snd entry)) (fst entry);
     itemDescription := description (snd entry);
     itemExamples := match examples (snd entry) with
                     | Some l => l
                     | None => []
                     end |}.

Inductive Body :=
| LoadingCriteria
| Accordion (items : list Item)
| NoInformation.

(** Lines 144-180: the error alert, if any, and the body. *)
Definition render (s : State) : option str * Body :=
  (match error s with
   | Some e => if truthy e then Some e else None
   | None => None
   end,
   if isLoading s then LoadingCriteria
   else match criteria s with
        | Some c =>
            Accordion (map item (match entries c with Some l => l | None => [] end))
        | None => NoInformation
        end).

End CriteriaInfo.

(* ================================================================== *)
(** * The preview components ([ResumePreview], [PDFViewer])             *)
(* ================================================================== *)

Module ResumePreview.
Import JS.

(** Line 111; [top], [width] and [height] in pixels. *)
Record Highlight := {
  top : Q;
  width : Q;
  height : Q
}.

(** The [useState] cells (lines 107-111). *)
Record State := {
  content : str;
  isPdf : bool;
  isDocx : bool;
  highlightPosition : Highlight
}.

Definition initial : State :=
  {| content := [];
     isPdf := false;
     isDocx := false;
     highlightPosition := {| top := 0; width := 0; height := 0 |} |}.

Definition setContent (c : str) (s : State) : State :=
  {| content := c; isPdf := isPdf s; isDocx := isDocx s;
     highlightPosition := highlightPosition s |}.

Definition setIsPdf (b : bool) (s : State) : State :=
  {| content := content s; isPdf := b; isDocx := isDocx s;
     highlightPosition := highlightPosition s |}.

Definition setIsDocx (b : bool) (s : State) : State :=
  {| content := content s; isPdf := isPdf s; isDocx := b;
     highlightPosition := highlightPosition s |}.

Definition setHighlightPosition (h : Highlight) (s : State) : State :=
  {| content := content s; isPdf := isPdf s; isDocx := isDocx s;
     highlightPosition := h |}.

(** Line 121: [file.name.split(".").pop()?.toLowerCase()]. *)
Definition fileType (f : UploadForm.File) : option str :=
  option_map toLowerCase (pop (split "." (UploadForm.name f))).

Definition typeIs (t : option str) (ext : string) : bool :=
  match t with
  | Some e => str_eqb e (lit ext)
  | None => false
  end.

(** The first effect (lines 113-135), run when [file] has changed: the
    new state and the file handed to [FileReader.readAsText], if any. *)
Definition fileEffect (file : option UploadForm.File) (s : State)
  : State * option UploadForm.File :=
  match file with
  | None => (setIsDocx false (setIsPdf false (setContent [] s)), None)
  | Some f =>
      let t := fileType f in
      let s' := setIsDocx (typeIs t "docx") (setIsPdf (typeIs t "pdf") s) in
      if typeIs t "txt" then (s', Some f)
      else if typeIs t "docx" then
        (setContent (lit "[Word Document Content]") s', None)
      else (s', None)
  end.

(** [reader.onload] (lines 127-130): [text || ""]. *)
Definition onload (text : option str) (s : State) : State :=
  setContent (orElse text []) s.

(** The paragraph the interval callback of lines 146-162 highlights when
    its counter is [currentIndex] and there are [n] paragraphs, and the
    counter it leaves. *)
Definition paragraphAt (n currentIndex : nat) : nat :=
  if (n <=? currentIndex)%nat then 0%nat else currentIndex.

Definition nextIndex (n currentIndex : nat) : nat :=
  S (paragraphAt n currentIndex).

(** The geometry of a paragraph as the callback reads it. *)
Record Paragraph := {
  offsetTop : Q;
  rectWidth : Q;
  rectHeight : Q
}.

(** One run of the callback over the paragraphs found by
    [querySelectorAll("p")]; reading the rectangle of a missing paragraph
    throws ([None]). *)
Definition onInterval (paragraphs : list Paragraph) (currentIndex : nat)
    (s : State) : option (State * nat) :=
  match nth_error paragraphs (paragraphAt (List.length paragraphs) currentIndex) with
  | Some p =>
      Some (setHighlightPosition
              {| top := offsetTop p; width := rectWidth p; height := rectHeight p |} s,
            nextIndex (List.length paragraphs) currentIndex)
  | None => None
  end.

(** The lines of the text preview (lines 200-204): [line || " "] for each
    piece of [content.split("\n")]. *)
Definition newline : ascii := ascii_of_nat 10.

Definition displayedLines (s : State) : list str :=
  map (fun line => if truthy line then line else lit " ")
      (split newline (content s)).

Inductive View :=
| Nothing
| Pdf (file : UploadForm.File) (isProcessing : bool)
| WordPlaceholder
| TextPreview (highlight : option Highlight) (lines : list str).

(** Lines 167-208. *)
Definition render (file : option UploadForm.File) (isProcessing : bool)
    (s : State) : View :=
  match file with
  | None => Nothing
  | Some f =>
      if isPdf s then Pdf f isProcessing
      else if isDocx s then WordPlaceholder
      else TextPreview
             (if isProcessing then Some (highlightPosition s) else None)
             (displayedLines s)
  end.

End ResumePreview.

Module PDFViewer.

(** The highlight rectangle (line 159 of the viewer), in pixels. *)
Record Highlight := {
  top : Q;
  left : Q;
  width : Q;
  height : Q
}.

Definition initialHighlight : Highlight :=
  {| top := 0; left := 0; width := 100; height := 20 |}.

(** The interval callback (lines 177-192 of the viewer).  [iframe] is the
    client height and width of the frame, [None] when there is no frame;
    [r1] to [r4] are the four results of [Math.random()], in call order. *)
Definition onInterval (iframe : option (Q * Q)) (r1 r2 r3 r4 : Q)
    (current : Highlight) : Highlight :=
  match iframe with
  | None => current
  | Some (iframeHeight, iframeWidth) =>
      {| top := r1 * (iframeHeight - 40);
         left := r2 * (iframeWidth - 200);
         width := 150 + r3 * 200;
         height := 15 + r4 * 20 |}
  end.

End PDFViewer.

(* ================================================================== *)
(** * Specification vocabulary                                          *)
(* ================================================================== *)

Import JS.

(** [t] occurs in [s] as a substring. *)
Definition occurs (t s : str) : Prop :=
  exists pre post, s = pre ++ t ++ post.

Definition digits (s : str) : Prop :=
  s <> [] /\ Forall (fun c => isDigit c = true) s.

(** What follows a maximal run of digits does not begin with a digit. *)
Definition stopsDigits (rest : str) : Prop :=
  match rest with
  | [] => True
  | c :: _ => isDigit c = false
  end.

(** [s] begins with [<lo>-<hi>%], where [lo] and [hi] are non-empty runs of
    digits: a match of [/(\d+)-(\d+)%/] at the first character. *)
Definition matchesAt (s lo hi : str) : Prop :=
  digits lo /\ digits hi /\
  exists post, s = lo ++ "-"%char :: hi ++ "%"%char :: post.

(** The pattern occurs somewhere in [s]. *)
Definition matchesIn (s : str) : Prop :=
  exists pre rest lo hi, s = pre ++ rest /\ matchesAt rest lo hi.

(** [lo] and [hi] are the groups of the leftmost match in [s]. *)
Definition leftmostMatch (s lo hi : str) : Prop :=
  exists pre rest,
    s = pre ++ rest /\ matchesAt rest lo hi /\
    forall pre' rest' lo' hi',
      s = pre' ++ rest' -> (List.length pre' < List.length pre)%nat ->
      ~ matchesAt rest' lo' hi'.

(** Half the sum of the two numbers written as [lo] and [hi], as binary64
    arithmetic gives it. *)
Definition meanOf (lo hi : str) : number :=
  halve (addIntegers (parseInt lo) (parseInt hi)).

(** The approval percentage of a free-text approval chance, case by case
    in priority order: the mean of the two numbers of the leftmost
    [<low>-<high>%] (neither rounded to an integer nor capped); otherwise
    90, 60 or 30 for the first of "High", "Medium", "Low" that occurs;
    otherwise 50. *)
Inductive approvalSpec (s : str) : number -> Prop :=
| approval_range (lo hi : str) :
    leftmostMatch s lo hi -> approvalSpec s (meanOf lo hi)
| approval_high :
    ~ matchesIn s -> occurs (lit "High") s -> approvalSpec s (Num 90)
| approval_medium :
    ~ matchesIn s -> ~ occurs (lit "High") s -> occurs (lit "Medium") s ->
    approvalSpec s (Num 60)
| approval_low :
    ~ matchesIn s -> ~ occurs (lit "High") s -> ~ occurs (lit "Medium") s ->
    occurs (lit "Low") s -> approvalSpec s (Num 30)
| approval_default :
    ~ matchesIn s -> ~ occurs (lit "High") s -> ~ occurs (lit "Medium") s ->
    ~ occurs (lit "Low") s -> approvalSpec s (Num 50).

(** A number that is finite and a non-negative multiple of one half, or
    [Infinity]; never [NaN]. *)
Definition halfIntegerOrInfinity (x : number) : Prop :=
  match x with
  | Num q => exists n : Z, (0 <= n)%Z /\ q == n # 2
  | Infinity => True
  | NaN => False
  end.

(** A finite number between [lo] and [hi]. *)
Definition numberBetween (lo hi : Q) (x : number) : Prop :=
  match x with
  | Num q => lo <= q /\ q <= hi
  | _ => False
  end.

(** An entry of the detailed assessment: criterion name and evaluation. *)
Definition Entry : Type := str * AssessmentResult.Criterion.

(** The confidence an entry is shown with: its own, or 0 without one. *)
Definition shownConfidence (e : Entry) : Q :=
  AssessmentResult.confidenceOrZero (snd e).

(** Every entry carries a confidence. *)
Definition allConfident (l : list Entry) : Prop :=
  Forall (fun e => AssessmentResult.confidence (snd e) <> None) l.

(** A list of criteria entries is in descending order of confidence. *)
Definition descending (l : list Entry) : Prop :=
  StronglySorted (fun a b => shownConfidence b <= shownConfidence a) l.

(** The entries of [l] whose confidence equals [c], in their order. *)
Definition withConfidence (c : Q) (l : list Entry) : list Entry :=
  filter (fun e => Qeq_bool (shownConfidence e) c) l.

(** The stage that the thresholds 30 and 75 assign to a progress value:
    0 (extracting) up to 30, 1 (analyzing) above 30 and up to 75,
    2 (finalizing) above 75. *)
Definition stageOf (p : Q) : nat :=
  if Qlt_le_dec 75 p then 2 else if Qlt_le_dec 30 p then 1 else 0.

(** What holds of the processing notification between events: the timer
    runs exactly while the component is visible, the progress is within
    0..100, the stage is the one the thresholds give, and a hidden
    component is back at progress 0 and stage 0. *)
Definition notificationInvariant (s : ProcessingNotification.State) : Prop :=
  ProcessingNotification.timer s = ProcessingNotification.isVisible s /\
  0 <= ProcessingNotification.progress s /\
  ProcessingNotification.progress s <= 100 /\
  ProcessingNotification.stage s = stageOf (ProcessingNotification.progress s) /\
  (ProcessingNotification.isVisible s = false ->
   ProcessingNotification.progress s = 0 /\ ProcessingNotification.stage s = 0%nat).

(** What holds of the upload form between events: a request is in flight
    exactly while [isLoading] is set, and then there is one. *)
Definition formInvariant (w : UploadForm.World) : Prop :=
  (UploadForm.isLoading (UploadForm.ui w) = true /\
   exists req, UploadForm.inFlight w = [req]) \/
  (UploadForm.isLoading (UploadForm.ui w) = false /\
   UploadForm.inFlight w = []).

(* ================================================================== *)
(** * Sample data                                                       *)
(* ================================================================== *)

Definition criterionWith (c : Q) : AssessmentResult.Criterion :=
  {| AssessmentResult.confidence := Some c;
     AssessmentResult.weight := None;
     AssessmentResult.evaluation := None;
     AssessmentResult.matches := [];
     AssessmentResult.strong_examples_matched := [] |}.

(** An evaluation that carries no confidence. *)
Definition criterionWithout : AssessmentResult.Criterion :=
  {| AssessmentResult.confidence := None;
     AssessmentResult.weight := None;
     AssessmentResult.evaluation := Some (lit "Not evaluated.");
     AssessmentResult.matches := [];
     AssessmentResult.strong_examples_matched := [] |}.

(** A detailed assessment whose second criterion has no confidence. *)
Definition unratedEntries : list Entry :=
  [ (lit "Awards", criterionWith 0.3);
    (lit "Membership", criterionWithout);
    (lit "Press", criterionWith 0.9) ].

Definition sampleEntries : list Entry :=
  [ (lit "Awards", criterionWith 0.3);
    (lit "Membership", criterionWith 0.9);
    (lit "Press", criterionWith 0.6) ].

Definition assessmentWith (fieldType : option str) (entries : list Entry)
  : AssessmentResult.Assessment :=
  {| AssessmentResult.qualification_rating := Some (lit "High");
     AssessmentResult.approval_chance := Some (lit "60-80%");
     AssessmentResult.profile_type := None;
     AssessmentResult.field_type := fieldType;
     AssessmentResult.criteria_met_count := Some 3%nat;
     AssessmentResult.detailed_assessment := Some entries;
     AssessmentResult.application_recommendations := None;
     AssessmentResult.red_flags := None;
     AssessmentResult.visa_requirements := None |}.

Definition successPayload (a : AssessmentResult.Assessment)
  : AssessmentResult.Payload :=
  {| AssessmentResult.status := Some (lit "success");
     AssessmentResult.message := None;
     AssessmentResult.assessment := Some a |}.

Definition failurePayload (msg : option str) : AssessmentResult.Payload :=
  {| AssessmentResult.status := Some (lit "failure");
     AssessmentResult.message := msg;
     AssessmentResult.assessment := None |}.

Definition fileNamed (n : string) (content : string) : UploadForm.File :=
  {| UploadForm.name := lit n; UploadForm.blob := lit content |}.

Definition samplePayload : AssessmentResult.Payload :=
  successPayload (assessmentWith (Some (lit "sciences")) sampleEntries).

Definition okResponse (data : AssessmentResult.Payload) : UploadForm.Response :=
  UploadForm.Received 200 (inr (Some data)).

(** The form after [f] has been chosen and submitted: its request is in
    flight. *)
Definition submitted (f : UploadForm.File) : UploadForm.World :=
  UploadForm.run UploadForm.start
    [UploadForm.FileChosen [f]; UploadForm.SubmitPressed].

(** The form after the assessment of cv.pdf has arrived. *)
Definition assessed : UploadForm.World :=
  UploadForm.step (submitted (fileNamed "cv.pdf" "A"))
    (UploadForm.Settled (okResponse samplePayload)).

(** The notification after [n] ticks of an episode. *)
Definition ticked (n : nat) : ProcessingNotification.State :=
  ProcessingNotification.run (ProcessingNotification.mount true)
    (repeat ProcessingNotification.Tick n).

(** The analyzer animation hidden after two ticks: the third row was the
    current one. *)
Definition pausedAnimation : ResumeAnalyzerAnimation.State :=
  ResumeAnalyzerAnimation.run (ResumeAnalyzerAnimation.mount true)
    [ ResumeAnalyzerAnimation.Tick; ResumeAnalyzerAnimation.Tick;
      ResumeAnalyzerAnimation.Props false ].

(* ================================================================== *)
(** * More vocabulary                                                   *)
(* ================================================================== *)

(** [pieces.join(sep)] for a one-character separator. *)
Fixpoint join (sep : ascii) (pieces : list str) : str :=
  match pieces with
  | [] => []
  | [piece] => piece
  | piece :: pieces' => piece ++ sep :: join sep pieces'
  end.

(** No character of [s] is a digit. *)
Definition digitFree (s : str) : Prop :=
  Forall (fun c => isDigit c = false) s.

(** The message of a response that is a failure: [fetch] rejected, the
    status is not a success status, or the body is not JSON. *)
Definition failureMessage (resp : UploadForm.Response) : option str :=
  match resp with
  | UploadForm.FetchRejected message => Some message
  | UploadForm.Received statusCode json =>
      if UploadForm.ok statusCode then
        match json with
        | inl message => Some message
        | inr _ => None
        end
      else Some (lit "API request failed with status " ++ numberToString statusCode)
  end.

(** Only files the form accepted are selected or on their way to the
    server, and every request goes to the analyze endpoint. *)
Definition acceptedOnly (w : UploadForm.World) : Prop :=
  (forall f, UploadForm.file (UploadForm.ui w) = Some f ->
             UploadForm.rejected f = false) /\
  Forall (fun req =>
            UploadForm.rejected (UploadForm.cv_file req) = false /\
            exists base, UploadForm.url req = base ++ lit "/api/analyze")
         (UploadForm.inFlight w).

(** While a request is in flight no result is stored. *)
Definition noResultWhileLoading (w : UploadForm.World) : Prop :=
  UploadForm.isLoading (UploadForm.ui w) = true ->
  UploadForm.result (UploadForm.ui w) = None.

(** What holds of the analyzer animation between events: the timer runs
    exactly while it is visible and the index is one of the six rows. *)
Definition animationInvariant (s : ResumeAnalyzerAnimation.State) : Prop :=
  ResumeAnalyzerAnimation.timer s = ResumeAnalyzerAnimation.isVisible s /\
  (ResumeAnalyzerAnimation.currentCriteria s
   < List.length ResumeAnalyzerAnimation.criteria)%nat.

(** What holds of the API status between events: either a check is
    running, the status is "checking" and one request is in flight, or no
    check is running, the status is not "checking", a time of the last
    check is known and nothing is in flight. *)
Definition apiStatusInvariant (w : ApiStatus.World) : Prop :=
  (ApiStatus.isLoading (ApiStatus.ui w) = true /\
   ApiStatus.status (ApiStatus.ui w) = ApiStatus.checking /\
   exists req, ApiStatus.inFlight w = [req]) \/
  (ApiStatus.isLoading (ApiStatus.ui w) = false /\
   ApiStatus.status (ApiStatus.ui w) <> ApiStatus.checking /\
   ApiStatus.lastChecked (ApiStatus.ui w) <> None /\
   ApiStatus.inFlight w = []).

(** What holds of the criteria catalogue between events: while it loads
    there is no error and one request is in flight; otherwise nothing is in
    flight. *)
Definition criteriaInvariant (w : CriteriaInfo.World) : Prop :=
  (CriteriaInfo.isLoading (CriteriaInfo.ui w) = true /\
   CriteriaInfo.error (CriteriaInfo.ui w) = None /\
   exists req, CriteriaInfo.inFlight w = [req]) \/
  (CriteriaInfo.isLoading (CriteriaInfo.ui w) = false /\
   CriteriaInfo.inFlight w = []).

(** The counter of the paragraph highlighter after [k] runs of its
    callback, with [n] paragraphs. *)
Definition counterAfter (n k : nat) : nat :=
  Nat.iter k (ResumePreview.nextIndex n) 0%nat.

(* ================================================================== *)
(** * Facts about the library functions                                 *)
(* ================================================================== *)

Section StringFacts.

Lemma startsWith_iff (p s : str) :
  startsWith p s = true <-> exists post, s = p ++ post.
Proof.
  revert s; induction p as [|a p IH]; intros s; simpl.
  - split; [intros _; now exists s | reflexivity].
  - destruct s as [|b s].
    + split; [discriminate | intros [post H]; discriminate].
    + rewrite andb_true_iff, Ascii.eqb_eq, IH. split.
      * intros [-> [post ->]]. now exists post.
      * intros [post H]. injection H as -> ->. split; [reflexivity | now exists post].
Qed.

Lemma includes_iff (s t : str) :
  includes s t = true <-> occurs t s.
Proof.
  unfold occurs. induction s as [|c s IH].
  - simpl. rewrite orb_false_r, startsWith_iff. split.
    + intros [post H]. exists [], post. exact H.
    + intros [pre [post H]]. destruct pre; simpl in H.
      * now exists post.
      * discriminate.
  - cbn [includes]. rewrite orb_true_iff, startsWith_iff, IH. split.
    + intros [[post H] | [pre [post H]]].
      * exists [], post. exact H.
      * exists (c :: pre), post. simpl. now f_equal.
    + intros [pre [post H]]. destruct pre as [|c' pre]; simpl in H.
      * left. now exists post.
      * right. injection H as _ H. now exists pre, post.
Qed.

Lemma includes_false_iff (s t : str) :
  includes s t = false <-> ~ occurs t s.
Proof.
  rewrite <- includes_iff. destruct (includes s t); split; congruence.
Qed.

End StringFacts.

Section RegexFacts.
Import AssessmentResult.

Lemma spanDigits_app (ds rest : str) :
  Forall (fun c => isDigit c = true) ds -> stopsDigits rest ->
  spanDigits (ds ++ rest) = (ds, rest).
Proof.
  intros Hds Hrest. induction Hds as [|c ds Hc _ IH]; cbn [app spanDigits].
  - destruct rest as [|c rest]; [reflexivity|].
    cbn [stopsDigits spanDigits] in *. now rewrite Hrest.
  - now rewrite Hc, IH.
Qed.

Lemma spanDigits_inv (s ds rest : str) :
  spanDigits s = (ds, rest) ->
  s = ds ++ rest /\ Forall (fun c => isDigit c = true) ds /\ stopsDigits rest.
Proof.
  revert ds rest. induction s as [|c s IH]; intros ds rest; cbn [spanDigits].
  - intros [= <- <-]. repeat split. constructor.
  - destruct (isDigit c) eqn:Hc.
    + destruct (spanDigits s) as [ds' rest'].
      intros [= <- <-]. destruct (IH _ _ eq_refl) as (-> & Hds & Hrest).
      repeat split; [constructor; assumption | assumption].
    + intros [= <- <-]. repeat split; [constructor | exact Hc].
Qed.

Lemma percentageAt_iff (s lo hi : str) :
  percentageAt s = Some (lo, hi) <-> matchesAt s lo hi.
Proof.
  unfold percentageAt, matchesAt, digits. split.
  - destruct (spanDigits s) as [lo' r] eqn:E1.
    apply spanDigits_inv in E1 as (-> & Hlo & _).
    destruct lo' as [|d lo']; [discriminate|].
    destruct r as [|c1 r1]; [discriminate|].
    destruct (Ascii.eqb c1 "-") eqn:Ec1; [|discriminate].
    apply Ascii.eqb_eq in Ec1 as ->.
    destruct (spanDigits r1) as [hi' r3] eqn:E2.
    apply spanDigits_inv in E2 as (-> & Hhi & _).
    destruct hi' as [|d' hi']; [discriminate|].
    destruct r3 as [|c2 r3]; [discriminate|].
    destruct (Ascii.eqb c2 "%") eqn:Ec2; [|discriminate].
    apply Ascii.eqb_eq in Ec2 as ->.
    intros [= <- <-]. repeat split; try assumption; try discriminate.
    now exists r3.
  - intros ((Hlo0 & Hlo) & (Hhi0 & Hhi) & post & ->).
    rewrite (spanDigits_app _ Hlo) by reflexivity.
    destruct lo as [|d lo]; [contradiction|].
    rewrite Ascii.eqb_refl.
    rewrite (spanDigits_app _ Hhi) by reflexivity.
    destruct hi as [|d' hi]; [contradiction|].
    now rewrite Ascii.eqb_refl.
Qed.

Lemma percentageMatch_unfold (s : str) :
  percentageMatch s =
  match percentageAt s with
  | Some groups => Some groups
  | None => match s with [] => None | _ :: s' => percentageMatch s' end
  end.
Proof. destruct s; reflexivity. Qed.

Lemma percentageMatch_leftmost (s lo hi : str) :
  percentageMatch s = Some (lo, hi) <-> leftmostMatch s lo hi.
Proof.
  unfold leftmostMatch. split.
  - induction s as [|c s IH]; rewrite percentageMatch_unfold;
      destruct (percentageAt _) as [[lo' hi']|] eqn:E.
    + intros [= -> ->]. exists [], [].
      split; [reflexivity|]. split; [now apply percentageAt_iff|].
      simpl. intros. lia.
    + discriminate.
    + intros [= -> ->]. exists [], (c :: s).
      split; [reflexivity|]. split; [now apply percentageAt_iff|].
      simpl. intros. lia.
    + intros H. destruct (IH H) as (pre & rest & -> & Hm & Hleft).
      exists (c :: pre), rest.
      split; [reflexivity|]. split; [assumption|].
      intros pre' rest' lo' hi' Hs Hlen Hm'.
      destruct pre' as [|c' pre']; simpl in Hs.
      * subst rest'. apply percentageAt_iff in Hm'. congruence.
      * injection Hs as _ Hs. simpl in Hlen.
        apply (Hleft pre' rest' lo' hi' Hs); [lia | assumption].
  - intros (pre & rest & Hs & Hm & Hleft). revert s Hs Hleft.
    induction pre as [|c pre IH]; intros s Hs Hleft.
    + simpl in Hs. subst s. rewrite percentageMatch_unfold.
      apply percentageAt_iff in Hm. now rewrite Hm.
    + subst s. rewrite percentageMatch_unfold.
      destruct (percentageAt _) as [[lo' hi']|] eqn:E.
      * apply percentageAt_iff in E. exfalso.
        apply (Hleft [] _ lo' hi' eq_refl); [simpl; lia | assumption].
      * simpl. apply IH; [reflexivity|].
        intros pre' rest' lo' hi' Hs Hlen.
        apply (Hleft (c :: pre') rest' lo' hi'); [simpl; now f_equal | simpl; lia].
Qed.

Lemma percentageMatch_total (s : str) :
  matchesIn s -> exists lo hi, percentageMatch s = Some (lo, hi).
Proof.
  intros (pre & rest & lo & hi & -> & Hm).
  induction pre as [|c pre IH]; rewrite percentageMatch_unfold.
  - apply percentageAt_iff in Hm. simpl. rewrite Hm. now exists lo, hi.
  - destruct (percentageAt _) as [[lo' hi']|]; [now exists lo', hi'|].
    exact IH.
Qed.

Lemma percentageMatch_None (s : str) :
  percentageMatch s = None <-> ~ matchesIn s.
Proof.
  split.
  - intros E Hin. apply percentageMatch_total in Hin as (lo & hi & H). congruence.
  - intros Hn. destruct (percentageMatch s) as [[lo hi]|] eqn:E; [|reflexivity].
    exfalso. apply Hn. apply percentageMatch_leftmost in E as (pre & rest & Hs & Hm & _).
    now exists pre, rest, lo, hi.
Qed.

Lemma parseInt_nonneg_from (s : str) (acc : Z) :
  (0 <= acc)%Z ->
  (0 <= fold_left (fun a c => 10 * a + digitValue c) s acc)%Z.
Proof.
  revert acc. induction s as [|c s IH]; intros acc Hacc; cbn [fold_left];
    [assumption|].
  apply IH. unfold digitValue.
  pose proof (Nat2Z.is_nonneg (code c - 48)). lia.
Qed.

Lemma decimalValue_nonneg (s : str) : (0 <= decimalValue s)%Z.
Proof. apply parseInt_nonneg_from. lia. Qed.

(** Integers up to 2^53 are binary64 values. *)
Lemma toDouble_exact (z : Z) : (z <= 2 ^ 53)%Z -> toDouble z = Int z.
Proof.
  intros Hz. unfold toDouble. destruct (z <? 2 ^ 53)%Z eqn:E; [reflexivity|].
  apply Z.ltb_ge in E. assert (z = 2 ^ 53)%Z as -> by lia.
  vm_compute. reflexivity.
Qed.

Lemma toDouble_nonneg (z : Z) :
  (0 <= z)%Z ->
  match toDouble z with
  | Int v => (0 <= v)%Z
  | IntInfinity => True
  end.
Proof.
  intros Hz. unfold toDouble. destruct (z <? 2 ^ 53)%Z; [exact Hz|].
  match goal with |- context [if ?c then IntInfinity else _] => destruct c end;
    [exact I|].
  apply Z.shiftl_nonneg.
  assert (H : (0 <= Z.shiftr z (Z.log2 z - 52))%Z) by now apply Z.shiftr_nonneg.
  match goal with |- context [if ?c then _ else _] => destruct c end; lia.
Qed.

Lemma parseInt_nonneg (s : str) :
  match parseInt s with
  | Int v => (0 <= v)%Z
  | IntInfinity => True
  end.
Proof. apply toDouble_nonneg, decimalValue_nonneg. Qed.

End RegexFacts.

(* ================================================================== *)
(** * The approval percentage                                           *)
(* ================================================================== *)

Section ApprovalPercentage.
Import AssessmentResult.

Example approval_60_80 :
  getApprovalPercentage (lit "60-80%") = Num (140 # 2) /\ 140 # 2 == 70.
Proof. split; reflexivity. Qed.

Example approval_high_chance :
  getApprovalPercentage (lit "High chance") = Num 90.
Proof. reflexivity. Qed.

Example approval_medium_text : getApprovalPercentage (lit "Medium") = Num 60.
Proof. reflexivity. Qed.

Example approval_low_text : getApprovalPercentage (lit "Low") = Num 30.
Proof. reflexivity. Qed.

Example approval_unparseable :
  getApprovalPercentage (lit "unparseable text") = Num 50.
Proof. reflexivity. Qed.

(** The leftmost match decides, and it comes before the keywords. *)
Example approval_leftmost :
  getApprovalPercentage (lit "High: 12-34-56% or 70-80%") = Num (90 # 2).
Proof. reflexivity. Qed.

(** Above 2^53 the numbers read are rounded before they are added. *)
Example approval_rounded_operand :
  getApprovalPercentage (lit "9007199254740993-0%")
    = Num (9007199254740992 # 2).
Proof. vm_compute. reflexivity. Qed.

Lemma meanOf_exact (lo hi : str) :
  (decimalValue lo + decimalValue hi <= 2 ^ 53)%Z ->
  meanOf lo hi = Num ((decimalValue lo + decimalValue hi) # 2).
Proof.
  intros H. pose proof (decimalValue_nonneg lo). pose proof (decimalValue_nonneg hi).
  unfold meanOf, parseInt.
  rewrite (@toDouble_exact (decimalValue lo)) by lia.
  rewrite (@toDouble_exact (decimalValue hi)) by lia.
  cbn [addIntegers]. now rewrite toDouble_exact.
Qed.

Lemma meanOf_shape (lo hi : str) : halfIntegerOrInfinity (meanOf lo hi).
Proof.
  unfold meanOf. pose proof (parseInt_nonneg lo) as Hlo.
  pose proof (parseInt_nonneg hi) as Hhi.
  destruct (parseInt lo) as [a|], (parseInt hi) as [b|]; cbn [addIntegers];
    try exact I.
  pose proof (@toDouble_nonneg (a + b) ltac:(lia)) as H.
  destruct (toDouble (a + b)) as [v|]; [|exact I].
  exists v. split; [exact H | reflexivity].
Qed.

(** C1, as the code has it: the approval percentage follows the priority
    order range pattern, "High", "Medium", "Low", default 50.  For a range
    it is half the sum of the two numbers of the leftmost match, computed
    in binary64: exactly their mean, neither rounded to an integer nor
    capped at 100, whenever the two numbers add up to at most 2^53.  The
    result is never [NaN]: it is a non-negative integer or half-integer,
    or [Infinity]. *)
Theorem getApprovalPercentage_priority (s : str) (r : number) :
  (approvalSpec s r <-> r = getApprovalPercentage s) /\
  (forall lo hi,
     leftmostMatch s lo hi ->
     (decimalValue lo + decimalValue hi <= 2 ^ 53)%Z ->
     getApprovalPercentage s
       = Num ((decimalValue lo + decimalValue hi) # 2)) /\
  halfIntegerOrInfinity (getApprovalPercentage s).
Proof.
  split; [split|split].
  - unfold getApprovalPercentage.
    intros [lo hi H | Hn H1 | Hn H1 H2 | Hn H1 H2 H3 | Hn H1 H2 H3].
    + apply percentageMatch_leftmost in H. now rewrite H.
    + apply percentageMatch_None in Hn. apply includes_iff in H1.
      now rewrite Hn, H1.
    + apply percentageMatch_None in Hn. apply includes_false_iff in H1.
      apply includes_iff in H2. now rewrite Hn, H1, H2.
    + apply percentageMatch_None in Hn. apply includes_false_iff in H1, H2.
      apply includes_iff in H3. now rewrite Hn, H1, H2, H3.
    + apply percentageMatch_None in Hn. apply includes_false_iff in H1, H2, H3.
      now rewrite Hn, H1, H2, H3.
  - intros ->. unfold getApprovalPercentage.
    destruct (percentageMatch s) as [[lo hi]|] eqn:E.
    + apply approval_range. now apply percentageMatch_leftmost.
    + apply percentageMatch_None in E.
      destruct (includes s (lit "High")) eqn:E1.
      { apply approval_high; [assumption | now apply includes_iff]. }
      apply includes_false_iff in E1.
      destruct (includes s (lit "Medium")) eqn:E2.
      { apply approval_medium; try assumption. now apply includes_iff. }
      apply includes_false_iff in E2.
      destruct (includes s (lit "Low")) eqn:E3.
      { apply approval_low; try assumption. now apply includes_iff. }
      apply includes_false_iff in E3.
      now apply approval_default.
  - intros lo hi H Hsum. apply percentageMatch_leftmost in H.
    unfold getApprovalPercentage. rewrite H.
    now apply meanOf_exact.
  - unfold getApprovalPercentage.
    destruct (percentageMatch s) as [[lo hi]|]; [apply meanOf_shape|].
    destruct (includes s (lit "High"));
      [|destruct (includes s (lit "Medium"));
        [|destruct (includes s (lit "Low"))]].
    + exists 180%Z. split; [lia | reflexivity].
    + exists 120%Z. split; [lia | reflexivity].
    + exists 60%Z. split; [lia | reflexivity].
    + exists 100%Z. split; [lia | reflexivity].
Qed.

(** C1 as stated fails: the mean of 60 and 75 is shown as 67.5, which is
    not the rounded value 68 and not an integer, and a range above 100
    gives a value above 100. *)
Lemma getApprovalPercentage_not_rounded :
  getApprovalPercentage (lit "60-75%") = Num (135 # 2) /\
  ~ 135 # 2 == inject_Z (round ((60 + 75) / 2)) /\
  (forall n : Z, ~ 135 # 2 == inject_Z n) /\
  getApprovalPercentage (lit "150-250%") = Num (400 # 2) /\
  ~ 400 # 2 <= 100.
Proof.
  split; [reflexivity|]. split; [discriminate|]. split; [|split].
  - intros n Hn. unfold Qeq, inject_Z in Hn. simpl in Hn. lia.
  - reflexivity.
  - intros H. vm_compute in H. apply H. reflexivity.
Qed.

End ApprovalPercentage.

(* ================================================================== *)
(** * The order of the criteria                                         *)
(* ================================================================== *)

Section CriteriaOrder.
Import AssessmentResult.

(** Between two entries that carry a confidence, [x] goes in front of [y]
    exactly when its confidence is not smaller. *)
Lemma byConfidence_le (x y : Entry) (cx cy : Q) :
  confidence (snd x) = Some cx -> confidence (snd y) = Some cy ->
  (notPositive (byConfidence x y) = true <-> cy <= cx).
Proof.
  intros Hx Hy. unfold byConfidence. rewrite Hx, Hy. cbn [minus notPositive].
  rewrite Qle_bool_iff.
  rewrite (Qle_minus_iff (cy - cx) 0), (Qle_minus_iff cy cx).
  setoid_replace (0 + - (cy - cx)) with (cx + - cy) by ring.
  reflexivity.
Qed.

Lemma shownConfidence_some (e : Entry) (c : Q) :
  confidence (snd e) = Some c -> shownConfidence e = c.
Proof. intros H. unfold shownConfidence, confidenceOrZero. now rewrite H. Qed.

Lemma confident_some (e : Entry) :
  confidence (snd e) <> None -> confidence (snd e) = Some (shownConfidence e).
Proof.
  unfold shownConfidence, confidenceOrZero.
  destruct (confidence (snd e)); [reflexivity | contradiction].
Qed.

Lemma insert_perm (x : Entry) (l : list Entry) :
  Permutation (x :: l) (insert byConfidence x l).
Proof.
  induction l as [|y l IH]; simpl; [reflexivity|].
  destruct (notPositive (byConfidence x y)); [reflexivity|].
  rewrite perm_swap. now constructor.
Qed.

Lemma sort_perm (l : list Entry) : Permutation l (sort byConfidence l).
Proof.
  induction l as [|x l IH]; simpl; [constructor|].
  rewrite <- insert_perm. now constructor.
Qed.

Lemma sort_allConfident (l : list Entry) :
  allConfident l -> allConfident (sort byConfidence l).
Proof. apply Permutation_Forall, sort_perm. Qed.

Lemma insert_descending (x : Entry) (l : list Entry) :
  confidence (snd x) <> None -> allConfident l ->
  descending l -> descending (insert byConfidence x l).
Proof.
  unfold descending. intros Hx Hall.
  induction l as [|y l IH]; intros Hl; simpl.
  - repeat constructor.
  - apply StronglySorted_inv in Hl as [Hl Hy].
    inversion Hall as [|? ? Hcy Hall']; subst.
    pose proof (byConfidence_le x y (confident_some x Hx) (confident_some y Hcy))
      as Hle.
    destruct (notPositive (byConfidence x y)) eqn:E.
    + assert (H : shownConfidence y <= shownConfidence x) by now apply Hle.
      constructor.
      * constructor; assumption.
      * constructor; [assumption|].
        eapply Forall_impl; [|exact Hy]. intros z Hz. simpl in Hz.
        eapply Qle_trans; eassumption.
    + assert (H : shownConfidence x < shownConfidence y).
      { apply Qnot_le_lt. intros H. apply Hle in H. discriminate H. }
      constructor; [now apply IH|].
      eapply Permutation_Forall; [apply insert_perm|].
      constructor; [now apply Qlt_le_weak | assumption].
Qed.

Lemma sort_descending (l : list Entry) :
  allConfident l -> descending (sort byConfidence l).
Proof.
  induction 1 as [|x l Hx Hall IH]; simpl; [constructor|].
  apply insert_descending; [assumption | now apply sort_allConfident | exact IH].
Qed.

Lemma insert_withConfidence (c : Q) (x : Entry) (l : list Entry) :
  confidence (snd x) <> None -> allConfident l ->
  withConfidence c (insert byConfidence x l) = withConfidence c (x :: l).
Proof.
  unfold withConfidence. intros Hx.
  induction 1 as [|y l Hcy Hall IH]; [reflexivity|].
  cbn [insert].
  pose proof (byConfidence_le x y (confident_some x Hx) (confident_some y Hcy))
    as Hle.
  destruct (notPositive (byConfidence x y)) eqn:E; [reflexivity|].
  assert (H : shownConfidence x < shownConfidence y).
  { apply Qnot_le_lt. intros H. apply Hle in H. discriminate H. }
  cbn [filter] in *. rewrite IH.
  destruct (Qeq_bool (shownConfidence x) c) eqn:Ex;
    destruct (Qeq_bool (shownConfidence y) c) eqn:Ey; try reflexivity.
  apply Qeq_bool_iff in Ex, Ey. rewrite Ex, Ey in H.
  now apply Qlt_irrefl in H.
Qed.

Lemma sort_withConfidence (c : Q) (l : list Entry) :
  allConfident l ->
  withConfidence c (sort byConfidence l) = withConfidence c l.
Proof.
  induction 1 as [|x l Hx Hall IH]; [reflexivity|].
  cbn [sort]. rewrite insert_withConfidence
    by (assumption || now apply sort_allConfident).
  unfold withConfidence in *. cbn [filter]. now rewrite IH.
Qed.

Lemma cardConfidence_card (e : Entry) :
  cardConfidence (criterionCard e) = shownConfidence e.
Proof. destruct e; reflexivity. Qed.

Lemma cards_descending (l : list Entry) :
  descending l ->
  StronglySorted (fun x y => cardConfidence y <= cardConfidence x)
                 (map criterionCard l).
Proof.
  unfold descending. induction 1 as [|e l _ IH Hall]; simpl; constructor.
  - exact IH.
  - apply Forall_map. eapply Forall_impl; [|exact Hall].
    intros e' He'. now rewrite !cardConfidence_card.
Qed.

Example sorted_sample :
  map fst (sortedCriteria sampleEntries)
    = [lit "Membership"; lit "Press"; lit "Awards"] /\
  map shownConfidence (sortedCriteria sampleEntries) = [0.9; 0.6; 0.3].
Proof. split; reflexivity. Qed.

(** Entries with the same confidence keep the order of the payload. *)
Example sorted_ties :
  map fst (sortedCriteria
             [ (lit "a", criterionWith 0.5); (lit "b", criterionWith 0.9);
               (lit "c", criterionWith 0.5); (lit "d", criterionWith 0.9) ])
    = [lit "b"; lit "d"; lit "a"; lit "c"].
Proof. reflexivity. Qed.

Lemma rendered_cards (r : Payload) (a : Assessment) :
  status r = Some (lit "success") -> assessment r = Some a ->
  renderedCriteria (AssessmentResult (Some r))
    = map criterionCard (sortedCriteria (orEmpty (detailed_assessment a))).
Proof.
  intros Hs Ha. unfold AssessmentResult, statusIsSuccess. now rewrite Hs, Ha.
Qed.

(** C2 at a payload whose second criterion carries no confidence: the
    comparison of line 57 with it gives [NaN], which the sort takes for
    "equal", so the entries stay in the order of the payload and the cards
    read 30%, 0%, 90%: not in descending order of the confidence they are
    shown with. *)
Theorem criteria_unsorted_without_confidence :
  sortedCriteria unratedEntries = unratedEntries /\
  map cardName
    (renderedCriteria
       (AssessmentResult (Some (successPayload (assessmentWith None unratedEntries)))))
    = [lit "Awards"; lit "Membership"; lit "Press"] /\
  map confidencePct
    (renderedCriteria
       (AssessmentResult (Some (successPayload (assessmentWith None unratedEntries)))))
    = [30; 0; 90]%Z /\
  ~ descending (sortedCriteria unratedEntries).
Proof.
  split; [reflexivity|]. split; [reflexivity|]. split; [reflexivity|].
  intros H. change (sortedCriteria unratedEntries) with unratedEntries in H.
  apply StronglySorted_inv in H as [_ H].
  inversion H as [|? ? _ H']; subst. inversion H' as [|? ? H9 _]; subst.
  vm_compute in H9. now apply H9.
Qed.

(** For a successful payload whose criteria all carry a confidence, the
    criteria cards are the entries of the detailed assessment sorted by
    descending confidence; the sort only reorders the entries, and entries
    of equal confidence keep their relative order (the sort is stable), so
    the order is determined by the input. *)
Theorem criteria_sorted_when_confident (r : Payload) (a : Assessment) :
  status r = Some (lit "success") ->
  assessment r = Some a ->
  allConfident (orEmpty (detailed_assessment a)) ->
  renderedCriteria (AssessmentResult (Some r))
    = map criterionCard (sortedCriteria (orEmpty (detailed_assessment a))) /\
  StronglySorted (fun x y => cardConfidence y <= cardConfidence x)
                 (renderedCriteria (AssessmentResult (Some r))) /\
  descending (sortedCriteria (orEmpty (detailed_assessment a))) /\
  Permutation (orEmpty (detailed_assessment a))
              (sortedCriteria (orEmpty (detailed_assessment a))) /\
  forall c,
    withConfidence c (sortedCriteria (orEmpty (detailed_assessment a)))
      = withConfidence c (orEmpty (detailed_assessment a)).
Proof.
  intros Hs Ha Hall. rewrite (rendered_cards r Hs Ha).
  split; [reflexivity|]. split; [|split; [|split]].
  - now apply cards_descending, sort_descending.
  - now apply sort_descending.
  - apply sort_perm.
  - intros c. now apply sort_withConfidence.
Qed.

Lemma criteria_sorted_when_confident_witness :
  map cardConfidence
    (renderedCriteria
       (AssessmentResult (Some (successPayload (assessmentWith None sampleEntries)))))
    = [0.9; 0.6; 0.3] /\
  descending (sortedCriteria sampleEntries).
Proof.
  destruct (@criteria_sorted_when_confident
              (successPayload (assessmentWith None sampleEntries))
              (assessmentWith None sampleEntries) eq_refl eq_refl)
    as (E & _ & D & _).
  - repeat constructor; discriminate.
  - split; [rewrite E; reflexivity | exact D].
Defined.

End CriteriaOrder.

(* ================================================================== *)
(** * The processing notification                                       *)
(* ================================================================== *)

Section Notification.
Import ProcessingNotification.

Lemma incrementAmount_value : incrementAmount == 5 # 12.
Proof. reflexivity. Qed.

Lemma min_spec (x y : Q) :
  (x <= y /\ JS.min x y = x) \/ (y < x /\ JS.min x y = y).
Proof.
  unfold JS.min. destruct (Qle_bool x y) eqn:E.
  - left. split; [now apply Qle_bool_iff | reflexivity].
  - right. split; [|reflexivity]. apply Qnot_le_lt. intros H.
    apply Qle_bool_iff in H. congruence.
Qed.

Lemma stageOf_cases (p : Q) :
  (p <= 30 /\ stageOf p = 0%nat) \/
  (30 < p /\ p <= 75 /\ stageOf p = 1%nat) \/
  (75 < p /\ stageOf p = 2%nat).
Proof.
  unfold stageOf. destruct (Qlt_le_dec 75 p) as [H|H].
  - right; right. now split.
  - destruct (Qlt_le_dec 30 p) as [H'|H'].
    + right; left. now repeat split.
    + left. now split.
Qed.

Lemma stageOf_mono (p q : Q) : p <= q -> (stageOf p <= stageOf q)%nat.
Proof.
  intros Hpq.
  destruct (stageOf_cases p) as [[Hp ->] | [(Hp & Hp' & ->) | [Hp ->]]];
    destruct (stageOf_cases q) as [[Hq ->] | [(Hq & Hq' & ->) | [Hq ->]]];
    try lia; exfalso; lra.
Qed.

Lemma stageOf_eq (p q : Q) : p == q -> stageOf p = stageOf q.
Proof.
  intros Hpq. apply Nat.le_antisymm; apply stageOf_mono; lra.
Qed.

(** The stage effect leaves a stage that agrees with the thresholds when
    the stage it found was right for a progress not above the new one. *)
Lemma stageEffect_stage (s : State) (p0 : Q) :
  stage s = stageOf p0 -> p0 <= progress s ->
  stage (stageEffect s) = stageOf (progress s) /\
  progress (stageEffect s) = progress s /\
  isVisible (stageEffect s) = isVisible s /\
  timer (stageEffect s) = timer s.
Proof.
  intros Hs Hp. unfold stageEffect, stageOf.
  destruct (Qlt_le_dec 75 (progress s)) as [H|H]; [now repeat split|].
  destruct (Qlt_le_dec 30 (progress s)) as [H'|H']; [now repeat split|].
  repeat split. rewrite Hs.
  destruct (stageOf_cases p0) as [[_ ->] | [(Hp0 & _ & _) | [Hp0 _]]];
    [reflexivity | exfalso; lra | exfalso; lra].
Qed.

Lemma afterRender_stage (old new : State) :
  stage old = stageOf (progress old) -> stage new = stage old ->
  progress old <= progress new ->
  stage (afterRender old new) = stageOf (progress new) /\
  progress (afterRender old new) = progress new /\
  isVisible (afterRender old new) = isVisible new /\
  timer (afterRender old new) = timer new.
Proof.
  intros Hold Hnew Hle. unfold afterRender.
  destruct (Qeq_bool (progress old) (progress new)) eqn:E.
  - apply Qeq_bool_iff in E. repeat split.
    rewrite Hnew, Hold. now apply stageOf_eq.
  - apply (@stageEffect_stage new (progress old)); [congruence | assumption].
Qed.

Lemma onInterval_progress (s : State) :
  0 <= progress s -> progress s <= 100 ->
  progress s <= progress (onInterval s) /\ progress (onInterval s) <= 100.
Proof.
  intros H0 H100. unfold onInterval. simpl.
  pose proof incrementAmount_value as Hinc.
  destruct (min_spec (progress s + incrementAmount) 100) as [[H ->] | [H ->]];
    split; lra.
Qed.

Lemma mount_invariant (v : bool) : notificationInvariant (mount v).
Proof.
  destruct v; unfold notificationInvariant; simpl; repeat split;
    try discriminate; try reflexivity.
Qed.

Lemma step_invariant (s : State) (e : Event) :
  notificationInvariant s -> notificationInvariant (step s e).
Proof.
  intros (Ht & H0 & H100 & Hst & Hhid). destruct e as [v|]; simpl.
  - destruct (Bool.eqb v (isVisible s)) eqn:Ev.
    { unfold notificationInvariant. tauto. }
    destruct v.
    + (* shown again: it was hidden, and is at progress 0 *)
      destruct (isVisible s) eqn:Evis; [discriminate|].
      destruct (Hhid eq_refl) as [Hp Hs0].
      unfold afterRender, visibilityEffect. simpl.
      rewrite Qeq_bool_refl. unfold notificationInvariant. simpl.
      repeat split; assumption.
    + (* hidden: reset *)
      unfold visibilityEffect. simpl.
      assert (E : forall new, progress new = 0 -> stage new = 0%nat ->
                   stage (afterRender s new) = 0%nat /\
                   progress (afterRender s new) = 0 /\
                   isVisible (afterRender s new) = isVisible new /\
                   timer (afterRender s new) = timer new).
      { intros new Hp Hs0. unfold afterRender.
        destruct (Qeq_bool (progress s) (progress new)); [now repeat split|].
        unfold stageEffect. rewrite Hp. simpl. now repeat split. }
      match goal with |- notificationInvariant (afterRender s ?n) =>
        destruct (E n eq_refl eq_refl) as (E1 & E2 & E3 & E4) end.
      unfold notificationInvariant. rewrite E1, E2, E3, E4. simpl.
      repeat split; discriminate.
  - destruct (timer s) eqn:Etimer;
      [|unfold notificationInvariant; rewrite Etimer; tauto].
    destruct (onInterval_progress s H0 H100) as [Hle Hle100].
    destruct (@afterRender_stage s (onInterval s) Hst eq_refl Hle)
      as (E1 & E2 & E3 & E4).
    unfold notificationInvariant. rewrite E1, E2, E3, E4.
    change (timer (onInterval s)) with (timer s).
    change (isVisible (onInterval s)) with (isVisible s).
    split; [congruence|]. split; [now apply Qle_trans with (progress s)|].
    split; [assumption|]. split; [reflexivity|].
    intros Hv. congruence.
Qed.

Lemma reachable_invariant (s : State) :
  reachable s -> notificationInvariant s.
Proof.
  induction 1 as [v | s e _ IH];
    [apply mount_invariant | now apply step_invariant].
Qed.

Lemma reachable_run (s : State) (es : list Event) :
  reachable s -> reachable (run s es).
Proof.
  revert s. induction es as [|e es IH]; intros s Hs; simpl; [assumption|].
  apply IH. now constructor.
Qed.

Lemma tick_progress (s : State) :
  notificationInvariant s ->
  progress s <= progress (step s Tick) /\
  (stage s <= stage (step s Tick))%nat.
Proof.
  intros (Ht & H0 & H100 & Hst & Hhid). cbn [step].
  destruct (timer s); [|split; [apply Qle_refl | apply Nat.le_refl]].
  destruct (onInterval_progress s H0 H100) as [Hle Hle100].
  destruct (@afterRender_stage s (onInterval s) Hst eq_refl Hle)
    as (E1 & E2 & _).
  rewrite E1, E2, Hst. split; [assumption | now apply stageOf_mono].
Qed.

(** The first ticks of an episode leave the stage at 0. *)
Example first_ticks :
  stage (ticked 3) = 0%nat /\ progress (ticked 3) <= 100.
Proof. vm_compute. split; [reflexivity | discriminate]. Qed.

Lemma reachable_ticked (n : nat) : reachable (ticked n).
Proof. apply reachable_run. constructor. Qed.

(** Hiding the notification puts progress and stage back to 0. *)
Lemma hide_resets (s : State) :
  reachable s ->
  isVisible (step s (Props false)) = false /\
  progress (step s (Props false)) = 0 /\
  stage (step s (Props false)) = 0%nat.
Proof.
  intros Hs.
  assert (Hv : isVisible (step s (Props false)) = false).
  { cbn [step]. destruct (isVisible s) eqn:Ev; simpl; [|exact Ev].
    unfold afterRender. simpl.
    destruct (Qeq_bool (progress s) 0); reflexivity. }
  split; [exact Hv|].
  pose proof (reachable_invariant (reach_step (Props false) Hs)) as Hinv.
  destruct Hinv as (_ & _ & _ & _ & Hhid). now apply Hhid.
Qed.

(** C5: in every reachable state the progress is within 0..100; a tick
    never decreases it and never takes it above 100, for any number of
    ticks; hiding the notification resets it to 0, so that an episode
    starts at progress 0, both at the first render and when a hidden
    notification is shown again. *)
Theorem progress_monotone_clamped (s : State) :
  reachable s ->
  0 <= progress s /\ progress s <= 100 /\
  progress s <= progress (step s Tick) /\
  (forall n, progress (run s (repeat Tick n)) <= 100) /\
  progress (mount true) = 0 /\
  progress (step s (Props false)) = 0 /\
  (isVisible s = false ->
   isVisible (step s (Props true)) = true /\
   progress (step s (Props true)) = 0).
Proof.
  intros Hs. pose proof (reachable_invariant Hs) as Hinv.
  destruct (Hinv) as (Ht & H0 & H100 & Hst & Hhid).
  split; [assumption|]. split; [assumption|].
  split; [now apply tick_progress|].
  split.
  { intros n.
    apply (reachable_invariant (reachable_run (repeat Tick n) Hs)). }
  split; [reflexivity|].
  split; [now apply hide_resets|].
  intros Hv. destruct (Hhid Hv) as [Hp _].
  cbn [step]. rewrite Hv. simpl.
  unfold afterRender, visibilityEffect. simpl. rewrite Qeq_bool_refl.
  simpl. now split.
Qed.

Lemma progress_monotone_clamped_witness :
  progress (ticked 1) <= progress (step (ticked 1) Tick) /\
  progress (ticked 1) <= 100.
Proof.
  destruct (@progress_monotone_clamped (ticked 1) (reachable_ticked 1))
    as (_ & H100 & Hle & _).
  split; [exact Hle | exact H100].
Defined.

(** C6: in every reachable state the stage is the one the thresholds give
    for the progress: 0 (extracting) up to and including 30, 1 (analyzing)
    above 30 up to and including 75, 2 (finalizing) above 75; a tick never
    lowers the stage; and the stage effect gives stage 0 at 30, stage 1 at
    31 and stage 2 at 76. *)
Theorem stage_thresholds (s : State) :
  reachable s ->
  (progress s <= 30 -> stage s = 0%nat) /\
  (30 < progress s -> progress s <= 75 -> stage s = 1%nat) /\
  (75 < progress s -> stage s = 2%nat) /\
  (stage s <= stage (step s Tick))%nat /\
  stage (stageEffect (setProgress 30 (mount true))) = 0%nat /\
  stage (stageEffect (setProgress 31 (mount true))) = 1%nat /\
  stage (stageEffect (setProgress 76 (mount true))) = 2%nat.
Proof.
  intros Hs. pose proof (reachable_invariant Hs) as Hinv.
  destruct (Hinv) as (_ & _ & _ & Hst & _).
  destruct (stageOf_cases (progress s)) as [[Hp E] | [(Hp & Hp' & E) | [Hp E]]];
    rewrite <- Hst in E.
  - repeat split; try reflexivity; try (intros; assumption);
      try (intros; exfalso; lra). now apply tick_progress.
  - repeat split; try reflexivity; try (intros; assumption);
      try (intros; exfalso; lra). now apply tick_progress.
  - repeat split; try reflexivity; try (intros; assumption);
      try (intros; exfalso; lra). now apply tick_progress.
Qed.

Lemma stage_thresholds_witness : stage (ticked 73) = 1%nat.
Proof.
  apply (proj1 (proj2 (@stage_thresholds (ticked 73) (reachable_ticked 73)))).
  - vm_compute. reflexivity.
  - vm_compute. intros H. discriminate H.
Defined.

(** C10: in every reachable state the stage index is 0, 1 or 2, so
    [stages[stage]] is one of the three entries and rendering never reads
    past the array; the index is 0 at the first render and 0 again after
    the notification is hidden. *)
Theorem stage_index_in_bounds (s : State) :
  reachable s ->
  (stage s = 0 \/ stage s = 1 \/ stage s = 2)%nat /\
  (stage s < List.length stages)%nat /\
  (exists icon text, nth_error stages (stage s) = Some (icon, text)) /\
  render s <> Crash /\
  (forall v, stage (mount v) = 0%nat) /\
  stage (step s (Props false)) = 0%nat.
Proof.
  intros Hs. pose proof (reachable_invariant Hs) as Hinv.
  assert (Hb : (stage s = 0 \/ stage s = 1 \/ stage s = 2)%nat).
  { destruct Hinv as (_ & _ & _ & Hst & _). rewrite Hst.
    destruct (stageOf_cases (progress s)) as [[_ ->] | [(_ & _ & ->) | [_ ->]]];
      auto. }
  split; [exact Hb|].
  split; [destruct Hb as [-> | [-> | ->]]; simpl; lia|].
  assert (Hn : exists icon text, nth_error stages (stage s) = Some (icon, text)).
  { destruct Hb as [-> | [-> | ->]]; simpl; eauto. }
  split; [exact Hn|]. split.
  { unfold render. destruct Hn as (icon & text & ->).
    destruct (negb (isVisible s)); discriminate. }
  split; [intros []; reflexivity|].
  now apply hide_resets.
Qed.

Lemma stage_index_in_bounds_witness : render (ticked 200) <> Crash.
Proof.
  exact (proj1 (proj2 (proj2 (proj2
    (@stage_index_in_bounds (ticked 200) (reachable_ticked 200)))))).
Defined.

End Notification.

(* ================================================================== *)
(** * The failure view and the field type                               *)
(* ================================================================== *)

Section Renderer.
Import AssessmentResult.

Lemma str_eqb_eq (a b : str) : str_eqb a b = true <-> a = b.
Proof.
  unfold str_eqb. destruct (list_eq_dec ascii_dec a b); split; congruence.
Qed.

Lemma statusIsSuccess_iff (r : Payload) :
  statusIsSuccess r = true <-> status r = Some (lit "success").
Proof.
  unfold statusIsSuccess. destruct (status r) as [s|].
  - rewrite str_eqb_eq. split; congruence.
  - split; discriminate.
Qed.

Example failure_with_message :
  AssessmentResult (Some (failurePayload (Some (lit "parse error"))))
    = AnalysisFailed (lit "parse error").
Proof. reflexivity. Qed.

(** C7, as the code has it: a payload that is missing or whose status is
    not "success" is rendered as the failure view; its text is the
    payload's message when there is a non-empty one and otherwise
    "Unable to process the CV file"; no criteria are rendered. *)
Theorem failure_view (result : option Payload) :
  (forall r, result = Some r -> status r <> Some (lit "success")) ->
  AssessmentResult result
    = AnalysisFailed
        match result with
        | Some r =>
            match message r with
            | Some (c :: m) => c :: m
            | _ => lit "Unable to process the CV file"
            end
        | None => lit "Unable to process the CV file"
        end /\
  renderedCriteria (AssessmentResult result) = [].
Proof.
  intros H. destruct result as [r|]; [|split; reflexivity].
  assert (E : statusIsSuccess r = false).
  { destruct (statusIsSuccess r) eqn:E; [|reflexivity].
    apply statusIsSuccess_iff in E. now destruct (H r eq_refl). }
  unfold AssessmentResult. rewrite E. simpl.
  unfold failureDescription, orElse.
  destruct (message r) as [[|c m]|]; split; reflexivity.
Qed.

Lemma failure_view_witness :
  AssessmentResult (Some (failurePayload (Some (lit "parse error"))))
    = AnalysisFailed (lit "parse error") /\
  renderedCriteria
    (AssessmentResult (Some (failurePayload (Some (lit "parse error"))))) = [].
Proof.
  apply (@failure_view (Some (failurePayload (Some (lit "parse error"))))).
  intros r [= <-]. simpl. discriminate.
Defined.

(** C7 as stated fails: without a message the text is not
    "processing failed.". *)
Lemma failure_default_text :
  AssessmentResult None = AnalysisFailed (lit "Unable to process the CV file") /\
  AssessmentResult None <> AnalysisFailed (lit "processing failed.") /\
  AssessmentResult (Some (failurePayload None))
    <> AnalysisFailed (lit "processing failed.").
Proof. repeat split; discriminate. Qed.

Lemma capitalizeFrom_app (prevWord : bool) (pre rest : str) :
  capitalizeFrom prevWord (pre ++ rest)
    = capitalizeFrom prevWord pre
      ++ capitalizeFrom (fold_left (fun _ c => isWordChar c) pre prevWord) rest.
Proof.
  revert prevWord. induction pre as [|c pre IH]; intros prevWord;
    [reflexivity|].
  cbn [app capitalizeFrom fold_left]. now rewrite IH.
Qed.

(** A character that follows an underscore starts no word: it is never
    changed. *)
Lemma capitalize_after_underscore (pre post : str) (c : ascii) :
  capitalizeWords (pre ++ "_"%char :: c :: post)
    = capitalizeWords (pre ++ ["_"%char])
      ++ c :: capitalizeFrom (isWordChar c) post.
Proof.
  unfold capitalizeWords.
  change (pre ++ "_"%char :: c :: post)
    with (pre ++ ["_"%char] ++ c :: post).
  rewrite app_assoc, capitalizeFrom_app, fold_left_app.
  cbn [fold_left capitalizeFrom].
  change (isWordChar "_") with true. cbn [negb]. now rewrite andb_false_r.
Qed.

(** A letter that follows a space starts a word: it is upper-cased. *)
Lemma capitalize_after_space (pre post : str) (c : ascii) :
  isWordChar c = true ->
  capitalizeWords (pre ++ " "%char :: c :: post)
    = capitalizeWords (pre ++ [" "%char])
      ++ toUpperCaseChar c :: capitalizeFrom true post.
Proof.
  intros Hc. unfold capitalizeWords.
  change (pre ++ " "%char :: c :: post)
    with (pre ++ [" "%char] ++ c :: post).
  rewrite app_assoc, capitalizeFrom_app, fold_left_app.
  cbn [fold_left capitalizeFrom]. now rewrite Hc.
Qed.

(** C8 at the input of the claim: the field type "stem_researcher" is
    displayed as "Stem_researcher", because the underscore is a word
    character and nothing replaces it; the labels of fees and durations,
    which replace underscores by spaces first, would give
    "Stem Researcher".  The payload's own field is left as it was. *)
Theorem fieldType_underscore :
  fieldType (assessmentWith (Some (lit "stem_researcher")) [])
    = lit "Stem_researcher" /\
  fieldType (assessmentWith (Some (lit "stem_researcher")) [])
    <> lit "Stem Researcher" /\
  formatLabel (lit "stem_researcher") = lit "Stem Researcher" /\
  fieldType (assessmentWith (Some (lit "stem researcher")) [])
    = lit "Stem Researcher" /\
  field_type (assessmentWith (Some (lit "stem_researcher")) [])
    = Some (lit "stem_researcher").
Proof. repeat split; discriminate. Qed.

End Renderer.

(* ================================================================== *)
(** * The upload form                                                   *)
(* ================================================================== *)

Section Form.
Import UploadForm.

Lemma arrayIncludes_iff (arr : list str) (x : str) :
  arrayIncludes arr x = true <-> In x arr.
Proof.
  unfold arrayIncludes. rewrite existsb_exists. split.
  - intros (y & Hy & E). apply str_eqb_eq in E. now subst.
  - intros H. exists x. split; [assumption | now apply str_eqb_eq].
Qed.

(** A file is rejected exactly when its lower-cased extension is none of
    pdf, docx, txt. *)
Lemma rejected_iff (f : File) :
  rejected f = true <->
  forall ext, fileExt f = Some ext -> ~ In ext accepted.
Proof.
  unfold rejected. destruct (fileExt f) as [ext|].
  - rewrite orb_true_iff, !negb_true_iff. split.
    + intros [H | H] ext' [= <-] Hin.
      * destruct ext; [|discriminate]. simpl in Hin.
        destruct Hin as [Hin | [Hin | [Hin | []]]]; discriminate.
      * apply arrayIncludes_iff in Hin. congruence.
    + intros H. right. destruct (arrayIncludes accepted ext) eqn:E; [|reflexivity].
      apply arrayIncludes_iff in E. now destruct (H ext eq_refl).
  - split; [intros _ ext; discriminate | reflexivity].
Qed.

Lemma split_app_nodot (e : str) :
  ~ In "."%char e -> split "." e = [e].
Proof.
  induction e as [|c e IH]; intros Hn; [reflexivity|].
  cbn [split]. destruct (Ascii.eqb c ".") eqn:E.
  - apply Ascii.eqb_eq in E. subst c. exfalso. apply Hn. now left.
  - rewrite IH; [reflexivity|]. intros H. apply Hn. now right.
Qed.

Lemma split_app_sep (sep : ascii) (base rest : str) :
  exists p ps, split sep (base ++ sep :: rest) = (p :: ps) ++ split sep rest.
Proof.
  induction base as [|c base (p & ps & IH)]; cbn [app split].
  - rewrite Ascii.eqb_refl. now exists [], [].
  - destruct (Ascii.eqb c sep).
    + rewrite IH. now exists [], (p :: ps).
    + rewrite IH. now exists (c :: p), ps.
Qed.

Lemma pop_app (A : Type) (init l : list A) :
  l <> [] -> pop (init ++ l) = pop l.
Proof.
  intros Hl. induction init as [|x init IH]; [reflexivity|].
  cbn [app pop]. destruct (init ++ l) eqn:E; [|exact IH].
  apply app_eq_nil in E as [_ ->]. contradiction.
Qed.

Lemma pop_split_dot (base e : str) :
  ~ In "."%char e -> pop (split "." (base ++ "."%char :: e)) = Some e.
Proof.
  intros Hn. destruct (split_app_sep "." base e) as (p & ps & ->).
  rewrite split_app_nodot by assumption.
  rewrite pop_app by discriminate. reflexivity.
Qed.

(** The extension of [base.ext] is [ext], lower-cased. *)
Lemma fileExt_dot (base e : str) (content : list ascii) :
  ~ In "."%char e ->
  fileExt {| name := base ++ "."%char :: e; blob := content |}
    = Some (toLowerCase e).
Proof.
  intros Hn. unfold fileExt. simpl. now rewrite pop_split_dot.
Qed.

Example ext_upper : fileExt (fileNamed "Resume.final.PDF" "") = Some (lit "pdf").
Proof. reflexivity. Qed.

Example exe_rejected : rejected (fileNamed "virus.exe" "") = true.
Proof. reflexivity. Qed.

Example docx_accepted : rejected (fileNamed "cv.DocX" "") = false.
Proof. reflexivity. Qed.

(** A name without a dot is its own last piece. *)
Example bare_name_accepted : rejected (fileNamed "pdf" "") = false.
Proof. reflexivity. Qed.

Example no_extension_rejected :
  rejected (fileNamed "resume" "") = true /\ rejected (fileNamed "cv." "") = true.
Proof. split; reflexivity. Qed.

Example request_failed_message :
  error (handleSubmitSettled (Received 500 (inl (lit "")))
           (setIsLoading true initial))
    = Some (lit "API request failed with status 500").
Proof. reflexivity. Qed.

Lemma handleFileChange_isLoading (files : list File) (s : State) :
  isLoading (handleFileChange files s) = isLoading s.
Proof.
  unfold handleFileChange. destruct files as [|f files]; [reflexivity|].
  destruct (rejected f); reflexivity.
Qed.

Lemma step_formInvariant (w : World) (e : Event) :
  formInvariant w -> formInvariant (step w e).
Proof.
  unfold formInvariant. intros H. destruct e as [files | value | | resp]; cbn [step].
  - cbn [ui inFlight]. now rewrite handleFileChange_isLoading.
  - exact H.
  - unfold submitDisabled.
    destruct (isLoading (ui w)) eqn:El; [now rewrite El|].
    destruct H as [[H _] | [_ Hq]]; [discriminate|].
    unfold handleSubmit. destruct (file (ui w)) as [f|]; cbn [ui inFlight].
    + left. split; [reflexivity|]. rewrite Hq. simpl. eauto.
    + right. split; [exact El | now rewrite Hq].
  - destruct H as [[_ [req Hq]] | [Hl Hq]]; rewrite Hq.
    + right. split; [|reflexivity].
      cbn [ui]. unfold handleSubmitSettled. reflexivity.
    + right. now split.
Qed.

Lemma reachable_formInvariant (w : World) : reachable w -> formInvariant w.
Proof.
  induction 1 as [| w e _ IH]; [|now apply step_formInvariant].
  right. split; reflexivity.
Qed.

Lemma form_reachable_run (w : World) (es : list Event) :
  reachable w -> reachable (run w es).
Proof.
  revert w. induction es as [|e es IH]; intros w Hw; simpl; [assumption|].
  apply IH. now constructor.
Qed.

(** C3, as the code has it: a file whose lower-cased extension is none of
    pdf, docx, txt is rejected without any request being issued; the
    validation error is set and the selected file is cleared; a prior
    assessment result is left as it was. *)
Theorem rejected_file_fail_clear (w : World) (f : File) (others : list File) :
  (forall ext, fileExt f = Some ext -> ~ In ext accepted) ->
  inFlight (step w (FileChosen (f :: others))) = inFlight w /\
  error (ui (step w (FileChosen (f :: others)))) = Some unsupportedFormat /\
  file (ui (step w (FileChosen (f :: others)))) = None /\
  result (ui (step w (FileChosen (f :: others)))) = result (ui w) /\
  isLoading (ui (step w (FileChosen (f :: others)))) = isLoading (ui w).
Proof.
  intros H. apply rejected_iff in H.
  cbn [step ui inFlight handleFileChange]. rewrite H. repeat split.
Qed.

Lemma rejected_file_fail_clear_witness :
  error (ui (step start (FileChosen [fileNamed "virus.exe" "MZ"])))
    = Some unsupportedFormat /\
  file (ui (step start (FileChosen [fileNamed "virus.exe" "MZ"]))) = None /\
  inFlight (step start (FileChosen [fileNamed "virus.exe" "MZ"])) = [].
Proof.
  destruct (@rejected_file_fail_clear start (fileNamed "virus.exe" "MZ") [])
    as (Hq & He & Hf & _).
  - intros ext [= <-]. simpl. intros [H | [H | [H | []]]]; discriminate H.
  - split; [exact He | split; [exact Hf | exact Hq]].
Defined.

(** C3 as stated fails: after an assessment has been shown, choosing an
    unsupported file clears the file and leaves the result on screen. *)
Lemma rejected_file_keeps_result :
  result (ui assessed) = Some samplePayload /\
  file (ui (step assessed (FileChosen [fileNamed "virus.exe" "MZ"]))) = None /\
  error (ui (step assessed (FileChosen [fileNamed "virus.exe" "MZ"])))
    = Some unsupportedFormat /\
  result (ui (step assessed (FileChosen [fileNamed "virus.exe" "MZ"])))
    = Some samplePayload /\
  result (ui (step assessed (FileChosen [fileNamed "virus.exe" "MZ"]))) <> None /\
  shownResult (ui (step assessed (FileChosen [fileNamed "virus.exe" "MZ"])))
    <> None.
Proof. repeat split; discriminate. Qed.

(** C4, as the code has it: choosing another file while a request is in
    flight does not cancel the request and clears the displayed result;
    when the response for the old file arrives it is stored as the
    displayed result, whatever file is selected by then. *)
Theorem stale_response_applied
    (w : World) (req : Request) (rest : list Request) (f : File)
    (statusCode : nat) (data : option Payload) :
  inFlight w = req :: rest -> rejected f = false -> ok statusCode = true ->
  inFlight (step w (FileChosen [f])) = req :: rest /\
  file (ui (step w (FileChosen [f]))) = Some f /\
  result (ui (step w (FileChosen [f]))) = None /\
  inFlight (step (step w (FileChosen [f]))
                 (Settled (Received statusCode (inr data)))) = rest /\
  file (ui (step (step w (FileChosen [f]))
                 (Settled (Received statusCode (inr data))))) = Some f /\
  result (ui (step (step w (FileChosen [f]))
                   (Settled (Received statusCode (inr data))))) = data /\
  isLoading (ui (step (step w (FileChosen [f]))
                      (Settled (Received statusCode (inr data))))) = false.
Proof.
  intros Hq Hf Hok.
  cbn [step ui inFlight handleFileChange]. rewrite Hf, Hq.
  cbn [ui inFlight]. unfold handleSubmitSettled. rewrite Hok.
  repeat split.
Qed.

Lemma stale_response_applied_witness :
  file (ui (step (step (submitted (fileNamed "a.pdf" "A"))
                       (FileChosen [fileNamed "b.pdf" "B"]))
                 (Settled (okResponse samplePayload))))
    = Some (fileNamed "b.pdf" "B") /\
  result (ui (step (step (submitted (fileNamed "a.pdf" "A"))
                         (FileChosen [fileNamed "b.pdf" "B"]))
                   (Settled (okResponse samplePayload))))
    = Some samplePayload.
Proof.
  destruct (@stale_response_applied (submitted (fileNamed "a.pdf" "A"))
              {| url := apiUrl initial ++ lit "/api/analyze";
                 cv_file := fileNamed "a.pdf" "A" |}
              [] (fileNamed "b.pdf" "B") 200 (Some samplePayload)
              eq_refl eq_refl eq_refl)
    as (_ & _ & _ & _ & Hf & Hr & _).
  split; [exact Hf | exact Hr].
Defined.

(** C4 as stated fails: the response to the request for a.pdf is shown as
    the result although b.pdf has been selected since. *)
Lemma stale_response_shown :
  map cv_file (inFlight (submitted (fileNamed "a.pdf" "A")))
    = [fileNamed "a.pdf" "A"] /\
  fileNamed "a.pdf" "A" <> fileNamed "b.pdf" "B" /\
  file (ui (step (submitted (fileNamed "a.pdf" "A"))
                 (FileChosen [fileNamed "b.pdf" "B"])))
    = Some (fileNamed "b.pdf" "B") /\
  file (ui (step (step (submitted (fileNamed "a.pdf" "A"))
                       (FileChosen [fileNamed "b.pdf" "B"]))
                 (Settled (okResponse samplePayload))))
    = Some (fileNamed "b.pdf" "B") /\
  result (ui (step (step (submitted (fileNamed "a.pdf" "A"))
                         (FileChosen [fileNamed "b.pdf" "B"]))
                   (Settled (okResponse samplePayload))))
    = Some samplePayload /\
  shownResult (ui (step (step (submitted (fileNamed "a.pdf" "A"))
                              (FileChosen [fileNamed "b.pdf" "B"]))
                        (Settled (okResponse samplePayload))))
    <> None.
Proof. repeat split; discriminate. Qed.

(** The handler itself does not look at [isLoading]; what keeps a second
    request from being issued is the disabled button. *)
Example handleSubmit_unguarded :
  snd (handleSubmit (setIsLoading true (setFile (Some (fileNamed "cv.pdf" "A")) initial)))
    <> None.
Proof. discriminate. Qed.

(** C9: in every reachable state at most one request is in flight, and
    there is one exactly while [isLoading] is set; pressing submit while
    [isLoading] is set changes nothing and issues no request. *)
Theorem at_most_one_in_flight (w : World) :
  reachable w ->
  (List.length (inFlight w) <= 1)%nat /\
  (isLoading (ui w) = true <-> List.length (inFlight w) = 1%nat) /\
  (isLoading (ui w) = true -> step w SubmitPressed = w).
Proof.
  intros Hw. apply reachable_formInvariant in Hw.
  destruct Hw as [[Hl [req Hq]] | [Hl Hq]]; rewrite Hq, Hl; cbn [List.length].
  - split; [lia|]. split; [tauto|]. intros _.
    cbn [step]. unfold submitDisabled. now rewrite Hl.
  - split; [lia|]. split; [split; discriminate | discriminate].
Qed.

Lemma at_most_one_in_flight_witness :
  isLoading (ui (submitted (fileNamed "cv.pdf" "A"))) = true /\
  step (submitted (fileNamed "cv.pdf" "A")) SubmitPressed
    = submitted (fileNamed "cv.pdf" "A").
Proof.
  split; [reflexivity|].
  apply (proj2 (proj2 (@at_most_one_in_flight (submitted (fileNamed "cv.pdf" "A"))
           (form_reachable_run
              [FileChosen [fileNamed "cv.pdf" "A"]; SubmitPressed] reach_start)))).
  reflexivity.
Defined.

End Form.

(* ================================================================== *)
(** * Splitting and decimal numbers                                     *)
(* ================================================================== *)

Section Splitting.

Lemma split_nonempty (sep : ascii) (s : str) : split sep s <> [].
Proof.
  destruct s as [|c s]; cbn [split]; [discriminate|].
  destruct (Ascii.eqb c sep); [discriminate|].
  destruct (split sep s); discriminate.
Qed.

Lemma join_cons (sep : ascii) (piece : str) (pieces : list str) :
  pieces <> [] -> join sep (piece :: pieces) = piece ++ sep :: join sep pieces.
Proof. destruct pieces; [contradiction | reflexivity]. Qed.

(** [split] loses nothing and cuts at every separator: joining the pieces
    with the separator gives the string back, there is one piece more than
    there are separators, and no piece contains the separator. *)
Lemma split_spec (sep : ascii) (s : str) :
  join sep (split sep s) = s /\
  List.length (split sep s) = S (count_occ ascii_dec s sep) /\
  Forall (fun piece => ~ In sep piece) (split sep s).
Proof.
  induction s as [|c s (IHj & IHl & IHf)].
  - repeat split. repeat constructor. intros [].
  - cbn [split]. destruct (Ascii.eqb c sep) eqn:E.
    + apply Ascii.eqb_eq in E. subst c.
      rewrite join_cons by apply split_nonempty. rewrite IHj.
      split; [reflexivity|]. split.
      * cbn [List.length]. rewrite IHl.
        rewrite count_occ_cons_eq by reflexivity. reflexivity.
      * constructor; [intros [] | exact IHf].
    + assert (Hc : c <> sep) by (intros ->; rewrite Ascii.eqb_refl in E; discriminate).
      destruct (split sep s) as [|piece pieces] eqn:Es.
      { now destruct (split_nonempty sep s). }
      split; [|split].
      * destruct pieces as [|piece' pieces]; cbn [join] in *;
          simpl; now rewrite IHj.
      * cbn [List.length] in *. rewrite IHl.
        rewrite count_occ_cons_neq by assumption. reflexivity.
      * inversion IHf as [|? ? Hp Hps]; subst. constructor; [|assumption].
        intros [H | H]; [now apply Hc | now apply Hp].
Qed.

Lemma string_of_uint_digits (d : Decimal.uint) :
  Forall (fun c => isDigit c = true) (lit (NilEmpty.string_of_uint d)).
Proof.
  induction d; cbn [NilEmpty.string_of_uint lit list_ascii_of_string];
    constructor; (reflexivity || assumption).
Qed.

Lemma parseInt_string_of_uint (d : Decimal.uint) (acc : nat) :
  fold_left (fun a c => 10 * a + digitValue c)%Z
            (lit (NilEmpty.string_of_uint d)) (Z.of_nat acc)
    = Z.of_nat (Nat.of_uint_acc d acc).
Proof.
  revert acc.
  induction d as [|d IH|d IH|d IH|d IH|d IH|d IH|d IH|d IH|d IH|d IH];
    intros acc;
    cbn [NilEmpty.string_of_uint lit list_ascii_of_string fold_left
         Nat.of_uint_acc];
    [reflexivity|..];
    rewrite <- IH; f_equal; rewrite Nat.tail_mul_spec;
    unfold digitValue;
    match goal with
    | |- context [Z.of_nat (code ?c - 48)] =>
        let v := eval vm_compute in (Z.of_nat (code c - 48)) in
        change (Z.of_nat (code c - 48)) with v
    end; lia.
Qed.

Lemma numberToString_nonempty (n : nat) : numberToString n <> [].
Proof.
  unfold numberToString. intros H.
  assert (E : Nat.to_uint n = Decimal.Nil).
  { destruct (Nat.to_uint n); (reflexivity || discriminate H). }
  pose proof (DecimalNat.Unsigned.of_to n) as Hn. rewrite E in Hn.
  cbn in Hn. subst n. discriminate E.
Qed.

Lemma numberToString_digits (n : nat) : digits (numberToString n).
Proof.
  split; [apply numberToString_nonempty | apply string_of_uint_digits].
Qed.

Lemma decimalValue_numberToString (n : nat) :
  decimalValue (numberToString n) = Z.of_nat n.
Proof.
  unfold decimalValue, numberToString.
  change 0%Z with (Z.of_nat 0). rewrite parseInt_string_of_uint.
  fold (Nat.of_uint (Nat.to_uint n)). now rewrite DecimalNat.Unsigned.of_to.
Qed.

End Splitting.

Section ApprovalRanges.
Import AssessmentResult.

Lemma percentageAt_nondigit (c : ascii) (s : str) :
  isDigit c = false -> percentageAt (c :: s) = None.
Proof.
  intros H. unfold percentageAt. cbn [spanDigits]. now rewrite H.
Qed.

Lemma percentageMatch_skip (pre rest : str) :
  digitFree pre -> percentageMatch (pre ++ rest) = percentageMatch rest.
Proof.
  induction 1 as [|c pre Hc _ IH]; [reflexivity|].
  rewrite percentageMatch_unfold. cbn [app].
  now rewrite percentageAt_nondigit by assumption.
Qed.

(** For natural numbers [a] and [b] that add up to at most 2^53, a text
    that reads [a-b%] after a prefix without digits, whatever follows,
    gives the mean of [a] and [b]. *)
Theorem approval_of_range_text (pre post : str) (a b : nat) :
  digitFree pre ->
  (Z.of_nat a + Z.of_nat b <= 2 ^ 53)%Z ->
  getApprovalPercentage
    (pre ++ numberToString a ++ "-"%char :: numberToString b ++ "%"%char :: post)
    = Num ((Z.of_nat a + Z.of_nat b) # 2).
Proof.
  intros Hpre Hsum. unfold getApprovalPercentage.
  rewrite (percentageMatch_skip _ Hpre), percentageMatch_unfold.
  assert (E : percentageAt
                (numberToString a ++ "-"%char :: numberToString b ++ "%"%char :: post)
              = Some (numberToString a, numberToString b)).
  { apply percentageAt_iff. split; [apply numberToString_digits|].
    split; [apply numberToString_digits|]. now exists post. }
  rewrite E. fold (meanOf (numberToString a) (numberToString b)).
  rewrite meanOf_exact; rewrite !decimalValue_numberToString;
    [reflexivity | exact Hsum].
Qed.

Lemma approval_of_range_text_witness :
  getApprovalPercentage (lit "Chance: 45-70% (Medium)") = Num ((45 + 70) # 2).
Proof.
  apply (@approval_of_range_text (lit "Chance: ") (lit " (Medium)") 45 70).
  - repeat constructor.
  - discriminate.
Defined.

(** The bar value of a range whose two numbers add up to at most 2^53
    lies between the two numbers; and it is within 0..100 whenever both
    numbers are at most 100. *)
Theorem approval_between (s lo hi : str) :
  leftmostMatch s lo hi ->
  ((decimalValue lo + decimalValue hi <= 2 ^ 53)%Z ->
   numberBetween (inject_Z (Z.min (decimalValue lo) (decimalValue hi)))
                 (inject_Z (Z.max (decimalValue lo) (decimalValue hi)))
                 (getApprovalPercentage s)) /\
  ((decimalValue lo <= 100)%Z -> (decimalValue hi <= 100)%Z ->
   numberBetween 0 100 (getApprovalPercentage s)).
Proof.
  intros H. apply percentageMatch_leftmost in H.
  unfold getApprovalPercentage. rewrite H. fold (meanOf lo hi).
  pose proof (decimalValue_nonneg lo). pose proof (decimalValue_nonneg hi).
  split.
  - intros Hsum. rewrite meanOf_exact by exact Hsum.
    unfold numberBetween, Qle, inject_Z. cbn. split; lia.
  - intros Hlo Hhi.
    assert (Hsum : (decimalValue lo + decimalValue hi <= 2 ^ 53)%Z).
    { apply Z.le_trans with 200%Z; [lia | discriminate]. }
    rewrite meanOf_exact by exact Hsum.
    unfold numberBetween, Qle. cbn. split; lia.
Qed.

Lemma approval_between_witness :
  numberBetween 60 80 (getApprovalPercentage (lit "60-80%")).
Proof.
  apply (proj1 (@approval_between (lit "60-80%") (lit "60") (lit "80")
                  ltac:(apply percentageMatch_leftmost; reflexivity))).
  discriminate.
Defined.

End ApprovalRanges.

(* ================================================================== *)
(** * Labels, badges and evidence                                       *)
(* ================================================================== *)

Section Display.
Import AssessmentResult.

Ltac by_cases_on c :=
  destruct c as [[] [] [] [] [] [] [] []]; vm_compute; try reflexivity.

Lemma toLowerCaseChar_idem (c : ascii) :
  toLowerCaseChar (toLowerCaseChar c) = toLowerCaseChar c.
Proof. by_cases_on c. Qed.

Lemma toLowerCaseChar_upper (c : ascii) :
  toLowerCaseChar (toUpperCaseChar c) = toLowerCaseChar c.
Proof. by_cases_on c. Qed.

Lemma toUpperCaseChar_idem (c : ascii) :
  toUpperCaseChar (toUpperCaseChar c) = toUpperCaseChar c.
Proof. by_cases_on c. Qed.

Lemma isWordChar_upper (c : ascii) :
  isWordChar (toUpperCaseChar c) = isWordChar c.
Proof. by_cases_on c. Qed.

Lemma toUpperCaseChar_underscore (c : ascii) :
  toUpperCaseChar c = "_"%char -> c = "_"%char.
Proof. by_cases_on c; intros H; discriminate H. Qed.

Lemma toLowerCase_idem (s : str) : toLowerCase (toLowerCase s) = toLowerCase s.
Proof.
  unfold toLowerCase. rewrite map_map. apply map_ext.
  intros c. apply toLowerCaseChar_idem.
Qed.

Lemma capitalizeFrom_length (b : bool) (s : str) :
  List.length (capitalizeFrom b s) = List.length s.
Proof.
  revert b. induction s as [|c s IH]; intros b; [reflexivity|].
  cbn [capitalizeFrom List.length]. now rewrite IH.
Qed.

Lemma capitalizeFrom_lower (b : bool) (s : str) :
  toLowerCase (capitalizeFrom b s) = toLowerCase s.
Proof.
  revert b. induction s as [|c s IH]; intros b; [reflexivity|].
  cbn [capitalizeFrom toLowerCase map]. fold (toLowerCase (capitalizeFrom (isWordChar c) s)).
  fold (toLowerCase s). rewrite IH. f_equal.
  destruct (isWordChar c && negb b); [apply toLowerCaseChar_upper | reflexivity].
Qed.

Lemma capitalizeFrom_idem (b : bool) (s : str) :
  capitalizeFrom b (capitalizeFrom b s) = capitalizeFrom b s.
Proof.
  revert b. induction s as [|c s IH]; intros b; [reflexivity|].
  cbn [capitalizeFrom].
  destruct (isWordChar c && negb b) eqn:E.
  - rewrite isWordChar_upper, E, toUpperCaseChar_idem. now rewrite IH.
  - rewrite E. now rewrite IH.
Qed.

Lemma capitalizeFrom_underscore (b : bool) (s : str) :
  In "_"%char (capitalizeFrom b s) -> In "_"%char s.
Proof.
  revert b. induction s as [|c s IH]; intros b; [intros []|].
  cbn [capitalizeFrom]. intros [H | H].
  - left. destruct (isWordChar c && negb b); [|exact H].
    now apply toUpperCaseChar_underscore.
  - right. now apply (IH (isWordChar c)).
Qed.

(** The displayed field type differs from the payload's field only in
    letter case: it has the same length and the same lower-case form; a
    missing or empty field is shown as "Unknown"; and title-casing twice
    changes nothing more. *)
Theorem fieldType_case_only (a : Assessment) :
  match field_type a with
  | Some (c :: f) =>
      List.length (fieldType a) = List.length (c :: f) /\
      toLowerCase (fieldType a) = toLowerCase (c :: f) /\
      capitalizeWords (fieldType a) = fieldType a
  | _ => fieldType a = lit "Unknown"
  end.
Proof.
  unfold fieldType. destruct (field_type a) as [[|c f]|]; try reflexivity.
  cbn [option_map orElse]. unfold capitalizeWords at 1 3 4 6.
  cbn [capitalizeFrom truthy].
  change (?x :: capitalizeFrom (isWordChar c) f)
    with (capitalizeFrom false (c :: f)).
  split; [apply capitalizeFrom_length|].
  split; [apply capitalizeFrom_lower | apply capitalizeFrom_idem].
Qed.

(** The label of a fee or of a visa duration never shows an underscore; it
    is as long as the key, and a key without underscores is only
    title-cased. *)
Theorem formatLabel_no_underscore (name : str) :
  ~ In "_"%char (formatLabel name) /\
  List.length (formatLabel name) = List.length name /\
  (~ In "_"%char name -> formatLabel name = capitalizeWords name).
Proof.
  unfold formatLabel, capitalizeWords. split; [|split].
  - intros H. apply capitalizeFrom_underscore in H.
    unfold underscoresToSpaces in H. apply in_map_iff in H as (c & Hc & _).
    destruct (Ascii.eqb c "_") eqn:E; [discriminate Hc|].
    subst c. discriminate E.
  - rewrite capitalizeFrom_length. unfold underscoresToSpaces.
    apply length_map.
  - intros H. f_equal. unfold underscoresToSpaces.
    rewrite <- (map_id name) at 2. apply map_ext_in.
    intros c Hc. destruct (Ascii.eqb c "_") eqn:E; [|reflexivity].
    apply Ascii.eqb_eq in E. subst c. contradiction.
Qed.

(** The rating badge and the rating icon agree: the cross goes with the
    destructive badge, the alert with the outline badge, the check mark
    with the other two; an absent rating gets the cross and the
    destructive badge; and the rating is read without regard to letter
    case. *)
Theorem rating_badge_icon (r : str) :
  (getIcon r = XCircle <-> getBadgeVariant r = VariantDestructive) /\
  (getIcon r = AlertCircle <-> getBadgeVariant r = VariantOutline) /\
  (getIcon r = CheckCircle2 <->
   getBadgeVariant r = VariantDefault \/ getBadgeVariant r = VariantSecondary) /\
  (forall a, qualification_rating a = None ->
     getIcon (rating a) = XCircle /\
     getBadgeVariant (rating a) = VariantDestructive) /\
  (forall a w, qualification_rating a = Some w -> toLowerCase w = r ->
     r <> [] ->
     getIcon (rating a) = getIcon r /\
     getBadgeVariant (rating a) = getBadgeVariant r).
Proof.
  assert (Hiff :
    (getIcon r = XCircle <-> getBadgeVariant r = VariantDestructive) /\
    (getIcon r = AlertCircle <-> getBadgeVariant r = VariantOutline) /\
    (getIcon r = CheckCircle2 <->
     getBadgeVariant r = VariantDefault \/ getBadgeVariant r = VariantSecondary)).
  { unfold getIcon, getBadgeVariant.
    destruct (str_eqb r (lit "high")), (str_eqb r (lit "excellent")),
      (str_eqb r (lit "good")), (str_eqb r (lit "moderate")); cbn [orb];
      (split; [|split]); split; intros H;
      first [ reflexivity | discriminate H | (left; reflexivity)
            | (right; reflexivity) | (destruct H as [H | H]; discriminate H) ]. }
  destruct Hiff as (H1 & H2 & H3).
  split; [exact H1|]. split; [exact H2|]. split; [exact H3|]. split.
  - intros a Ha. unfold rating. rewrite Ha. split; reflexivity.
  - intros a w Ha Hw Hr.
    assert (E : rating a = r).
    { unfold rating. rewrite Ha. cbn [option_map orElse]. rewrite Hw.
      destruct r; [contradiction | reflexivity]. }
    rewrite E. split; reflexivity.
Qed.


Lemma includes_app (pre w post : str) : includes (pre ++ w ++ post) w = true.
Proof. apply includes_iff. now exists pre, post. Qed.

(** A criterion whose name contains "award" in any letter case gets the
    award icon, whatever other keywords the name contains; and names that
    differ only in letter case get the same icon. *)
Theorem criterion_icon_award (pre w post : str) :
  toLowerCase w = lit "award" ->
  getCriterionIcon (pre ++ w ++ post) = Award /\
  forall name,
    toLowerCase name = toLowerCase (pre ++ w ++ post) ->
    getCriterionIcon name = Award.
Proof.
  intros Hw.
  assert (E : getCriterionIcon (pre ++ w ++ post) = Award).
  { unfold getCriterionIcon, toLowerCase. rewrite !map_app.
    fold (toLowerCase w). rewrite Hw. now rewrite includes_app. }
  split; [exact E|].
  intros name Hn. unfold getCriterionIcon in *. now rewrite Hn.
Qed.

Lemma criterion_icon_award_witness :
  getCriterionIcon (lit "Prizes and AWARDS (national)") = Award.
Proof.
  apply (proj1 (@criterion_icon_award (lit "Prizes and ") (lit "AWARD")
                  (lit "S (national)") eq_refl)).
Defined.

Lemma snippet_length (m : str) : (List.length (snippet m) <= 303)%nat.
Proof.
  unfold snippet. destruct (300 <? List.length m)%nat eqn:E.
  - rewrite length_app, length_firstn.
    change (List.length (lit "...")) with 3%nat. lia.
  - apply Nat.ltb_ge in E. lia.
Qed.

Lemma snippet_prefix (m : str) : firstn 300 (snippet m) = firstn 300 m.
Proof.
  unfold snippet. destruct (300 <? List.length m)%nat eqn:E; [|reflexivity].
  apply Nat.ltb_lt in E.
  rewrite firstn_app, length_firstn, Nat.min_l by lia.
  rewrite Nat.sub_diag, firstn_firstn, Nat.min_id. cbn [firstn].
  apply app_nil_r.
Qed.

(** Evidence is cut for display only: a card shows the first three
    snippets (or all, if there are fewer), the shown and the remaining ones
    add up to all matches, a shown snippet has at most 303 characters and
    agrees with the match on its first 300, and a match of at most 300
    characters is shown in full. *)
Theorem evidence_truncated (entry : Entry) :
  List.length (evidenceShown (criterionCard entry))
    = Nat.min 3 (List.length (matches (snd entry))) /\
  (List.length (evidenceShown (criterionCard entry))
   + evidenceMore (criterionCard entry)
   = List.length (matches (snd entry)))%nat /\
  Forall (fun t => (List.length t <= 303)%nat)
         (evidenceShown (criterionCard entry)) /\
  forall i m,
    (i < 3)%nat -> nth_error (matches (snd entry)) i = Some m ->
    exists t,
      nth_error (evidenceShown (criterionCard entry)) i = Some t /\
      firstn 300 t = firstn 300 m /\
      ((List.length m <= 300)%nat -> t = m).
Proof.
  destruct entry as [name criterion]. cbn [criterionCard evidenceShown
    evidenceMore snd].
  rewrite length_map, length_firstn.
  split; [reflexivity|]. split; [lia|]. split.
  - apply Forall_map. apply Forall_forall. intros m _. apply snippet_length.
  - intros i m Hi Hm. exists (snippet m). split; [|split].
    + rewrite nth_error_map, nth_error_firstn.
      apply Nat.ltb_lt in Hi. now rewrite Hi, Hm.
    + apply snippet_prefix.
    + intros Hl. unfold snippet.
      apply Nat.ltb_ge in Hl. now rewrite Hl.
Qed.

Lemma round_mono (x y : Q) : x <= y -> (round x <= round y)%Z.
Proof.
  intros H. unfold round. apply Qfloor_resp_le. lra.
Qed.

Lemma confidencePct_card (e : Entry) :
  confidencePct (criterionCard e) = round (shownConfidence e * 100).
Proof. destruct e; reflexivity. Qed.

(** A confidence between 0 and 1 is shown as a whole percentage between 0
    and 100; so is an absent confidence, which is shown as 0. *)
Theorem confidencePct_bounds (e : Entry) :
  0 <= shownConfidence e -> shownConfidence e <= 1 ->
  (0 <= confidencePct (criterionCard e) <= 100)%Z.
Proof.
  intros H0 H1. rewrite confidencePct_card. split.
  - apply Z.le_trans with (round 0); [discriminate|].
    apply round_mono. lra.
  - apply Z.le_trans with (round 100); [|discriminate].
    apply round_mono. lra.
Qed.

Lemma confidencePct_bounds_witness :
  (0 <= confidencePct (criterionCard (lit "Awards", criterionWith 0.885)) <= 100)%Z.
Proof.
  apply (@confidencePct_bounds (lit "Awards", criterionWith 0.885));
    [discriminate | discriminate].
Defined.

(** When every criterion carries a confidence, the percentages shown
    never go up down the list of criterion cards. *)
Theorem confidencePct_descending (l : list Entry) :
  allConfident l ->
  StronglySorted (fun x y => (confidencePct y <= confidencePct x)%Z)
                 (map criterionCard (sortedCriteria l)).
Proof.
  intros Hall. unfold sortedCriteria.
  pose proof (sort_descending Hall) as H. unfold descending in H.
  induction H as [|e l' _ IH Hl]; cbn [map]; constructor; [exact IH|].
  apply Forall_map. eapply Forall_impl; [|exact Hl].
  intros e' He'. cbv beta in He'.
  rewrite !confidencePct_card. apply round_mono. lra.
Qed.

Lemma confidencePct_descending_witness :
  StronglySorted (fun x y => (confidencePct y <= confidencePct x)%Z)
                 (map criterionCard (sortedCriteria sampleEntries)).
Proof.
  apply (@confidencePct_descending sampleEntries).
  repeat constructor; discriminate.
Defined.

End Display.

(* ================================================================== *)
(** * More about the upload form                                        *)
(* ================================================================== *)

Section FormInvariants.
Import UploadForm.

Lemma accepted_iff (f : File) (ext : str) :
  fileExt f = Some ext -> (rejected f = false <-> In ext accepted).
Proof.
  intros E. unfold rejected. rewrite E. rewrite orb_false_iff, !negb_false_iff.
  rewrite arrayIncludes_iff. split; [tauto|].
  intros H. split; [|assumption].
  destruct H as [<- | [<- | [<- | []]]]; reflexivity.
Qed.

Lemma fileExt_bare (e : str) (content : list ascii) :
  ~ In "."%char e ->
  fileExt {| name := e; blob := content |} = Some (toLowerCase e).
Proof.
  intros Hn. unfold fileExt. cbn [name].
  now rewrite split_app_nodot by assumption.
Qed.

(** Acceptance goes by the text after the last dot, without regard to
    letter case: [base.ext] is accepted exactly when [ext], lower-cased, is
    pdf, docx or txt.  A name without any dot counts as its own
    extension. *)
Theorem accepted_by_extension (base e : str) (content : list ascii) :
  ~ In "."%char e ->
  (rejected {| name := base ++ "."%char :: e; blob := content |} = false
   <-> In (toLowerCase e) accepted) /\
  (rejected {| name := e; blob := content |} = false
   <-> In (toLowerCase e) accepted).
Proof.
  intros Hn. split; apply accepted_iff;
    [now apply fileExt_dot | now apply fileExt_bare].
Qed.

Lemma accepted_by_extension_witness :
  rejected (fileNamed "my.cv.v2.TXT" "text") = false /\
  rejected (fileNamed "Docx" "text") = false.
Proof.
  split.
  - apply (proj1 (@accepted_by_extension (lit "my.cv.v2") (lit "TXT") (lit "text")
                    ltac:(intros H; repeat (destruct H as [H | H]; [discriminate H|]);
                          exact H))).
    right; right; left; reflexivity.
  - apply (proj2 (@accepted_by_extension [] (lit "Docx") (lit "text")
                    ltac:(intros H; repeat (destruct H as [H | H]; [discriminate H|]);
                          exact H))).
    right; left; reflexivity.
Defined.

Lemma handleSubmitSettled_keeps (resp : Response) (s : State) :
  file (handleSubmitSettled resp s) = file s /\
  apiUrl (handleSubmitSettled resp s) = apiUrl s /\
  isLoading (handleSubmitSettled resp s) = false.
Proof.
  unfold handleSubmitSettled.
  destruct resp as [m | c [m | d]]; try destruct (negb (ok c));
    repeat split.
Qed.

Lemma step_acceptedOnly (w : World) (e : Event) :
  acceptedOnly w -> acceptedOnly (step w e).
Proof.
  intros [Hf Hq]. unfold acceptedOnly.
  destruct e as [files | value | | resp]; cbn [step].
  - split; [|exact Hq]. cbn [ui]. unfold handleFileChange.
    destruct files as [|f files]; [exact Hf|].
    destruct (rejected f) eqn:E; cbn [file setFile setError setResult].
    + discriminate.
    + intros f' [= <-]. exact E.
  - split; assumption.
  - destruct (submitDisabled (ui w)); [now split|].
    unfold handleSubmit. destruct (file (ui w)) as [f|] eqn:Ef.
    + split; cbn [ui inFlight].
      * cbn [file setResult setError setIsLoading]. now rewrite Ef.
      * apply Forall_app. split; [exact Hq|]. constructor; [|constructor].
        cbn [cv_file url]. split; [now apply Hf | now exists (apiUrl (ui w))].
    + split; cbn [ui inFlight].
      * cbn [file setError]. rewrite Ef. discriminate.
      * now rewrite app_nil_r.
  - destruct (inFlight w) as [|req rest] eqn:Eq;
      [split; [exact Hf | rewrite Eq; constructor]|].
    split; cbn [ui inFlight].
    + destruct (handleSubmitSettled_keeps resp (ui w)) as (-> & _). exact Hf.
    + now inversion Hq.
Qed.

Lemma reachable_acceptedOnly (w : World) : reachable w -> acceptedOnly w.
Proof.
  induction 1 as [| w e _ IH]; [|now apply step_acceptedOnly].
  split; [discriminate | constructor].
Qed.

(** A rejected file is never uploaded: in every reachable state the
    selected file, if any, is one the form accepted, and every request in
    flight carries an accepted file to a URL that ends in
    [/api/analyze]. *)
Theorem only_accepted_files_uploaded (w : World) :
  reachable w ->
  (forall f, file (ui w) = Some f -> rejected f = false) /\
  (forall req, In req (inFlight w) ->
     rejected (cv_file req) = false /\
     exists base, url req = base ++ lit "/api/analyze").
Proof.
  intros Hw. destruct (reachable_acceptedOnly Hw) as [Hf Hq].
  split; [exact Hf|]. intros req Hin.
  rewrite Forall_forall in Hq. now apply Hq.
Qed.

Lemma only_accepted_files_uploaded_witness :
  rejected (fileNamed "cv.pdf" "A") = false.
Proof.
  apply (proj1 (@only_accepted_files_uploaded (submitted (fileNamed "cv.pdf" "A"))
           (form_reachable_run
              [FileChosen [fileNamed "cv.pdf" "A"]; SubmitPressed] reach_start))
           (fileNamed "cv.pdf" "A") eq_refl).
Defined.

Lemma handleFileChange_result (files : list File) (s : State) :
  result s = None -> result (handleFileChange files s) = None.
Proof.
  intros H. unfold handleFileChange. destruct files as [|f files]; [exact H|].
  destruct (rejected f); [exact H | reflexivity].
Qed.

Lemma step_noResultWhileLoading (w : World) (e : Event) :
  noResultWhileLoading w -> noResultWhileLoading (step w e).
Proof.
  unfold noResultWhileLoading. intros H.
  destruct e as [files | value | | resp]; cbn [step].
  - cbn [ui]. rewrite handleFileChange_isLoading. intros Hl.
    now apply handleFileChange_result, H.
  - exact H.
  - unfold submitDisabled. destruct (isLoading (ui w)) eqn:El; [now rewrite El|].
    unfold handleSubmit. destruct (file (ui w)); cbn [ui]; [reflexivity|].
    cbn [isLoading setError]. rewrite El. discriminate.
  - destruct (inFlight w); [exact H|]. cbn [ui].
    destruct (handleSubmitSettled_keeps resp (ui w)) as (_ & _ & ->).
    discriminate.
Qed.

Lemma reachable_noResultWhileLoading (w : World) :
  reachable w -> noResultWhileLoading w.
Proof.
  induction 1 as [| w e _ IH]; [discriminate|].
  now apply step_noResultWhileLoading.
Qed.

(** While a request is in flight no result is shown; and when the request
    fails (the fetch is rejected, the status is not a success status, or
    the body is not JSON) the message becomes the error, the loading flag
    is cleared, the selected file stays, and still no result is shown. *)
Theorem failed_request_shows_error (w : World) (resp : Response) (m : str) :
  reachable w -> inFlight w <> [] -> failureMessage resp = Some m ->
  result (ui w) = None /\
  error (ui (step w (Settled resp))) = Some m /\
  result (ui (step w (Settled resp))) = None /\
  shownResult (ui (step w (Settled resp))) = None /\
  isLoading (ui (step w (Settled resp))) = false /\
  file (ui (step w (Settled resp))) = file (ui w).
Proof.
  intros Hw Hq Hm.
  assert (Hr : result (ui w) = None).
  { apply (reachable_noResultWhileLoading Hw).
    destruct (reachable_formInvariant Hw) as [[Hl _] | [_ Hq']];
      [exact Hl | contradiction]. }
  split; [exact Hr|].
  cbn [step]. destruct (inFlight w) as [|req rest]; [contradiction|].
  cbn [ui]. unfold shownResult, handleSubmitSettled.
  destruct resp as [m' | c [m' | d]]; cbn [failureMessage] in Hm.
  - injection Hm as ->. cbn. now rewrite Hr.
  - destruct (ok c); injection Hm as <-; cbn; now rewrite Hr.
  - destruct (ok c); [discriminate Hm|]. injection Hm as <-. cbn. now rewrite Hr.
Qed.

Lemma failed_request_shows_error_witness :
  error (ui (step (submitted (fileNamed "cv.pdf" "A"))
                  (Settled (Received 503 (inl (lit ""))))))
    = Some (lit "API request failed with status 503") /\
  result (ui (step (submitted (fileNamed "cv.pdf" "A"))
                   (Settled (Received 503 (inl (lit "")))))) = None.
Proof.
  destruct (@failed_request_shows_error (submitted (fileNamed "cv.pdf" "A"))
              (Received 503 (inl (lit "")))
              (lit "API request failed with status 503")
              (form_reachable_run
                 [FileChosen [fileNamed "cv.pdf" "A"]; SubmitPressed] reach_start))
    as (_ & He & Hr & _).
  - discriminate.
  - reflexivity.
  - split; [exact He | exact Hr].
Defined.

(** Submitting when no request is in flight: without a selected file it
    only sets the error "Please select a file to upload" (no request, the
    result stays as it was); with a selected file it issues exactly one
    request, for that file and the current API URL, sets the loading flag
    and clears error and result. *)
Theorem submit_issues_one_request (w : World) :
  reachable w -> isLoading (ui w) = false ->
  match file (ui w) with
  | None =>
      step w SubmitPressed
        = {| ui := setError (Some (lit "Please select a file to upload")) (ui w);
             inFlight := [] |}
  | Some f =>
      inFlight (step w SubmitPressed)
        = [ {| url := apiUrl (ui w) ++ lit "/api/analyze"; cv_file := f |} ] /\
      isLoading (ui (step w SubmitPressed)) = true /\
      error (ui (step w SubmitPressed)) = None /\
      result (ui (step w SubmitPressed)) = None /\
      file (ui (step w SubmitPressed)) = Some f
  end.
Proof.
  intros Hw Hl.
  destruct (reachable_formInvariant Hw) as [[Hl' _] | [_ Hq]]; [congruence|].
  cbn [step]. unfold submitDisabled, handleSubmit. rewrite Hl.
  destruct (file (ui w)) as [f|] eqn:Ef; rewrite Hq; cbn [app ui inFlight].
  - repeat split. cbn. exact Ef.
  - reflexivity.
Qed.

Lemma submit_issues_one_request_witness :
  step start SubmitPressed
    = {| ui := setError (Some (lit "Please select a file to upload")) initial;
         inFlight := [] |}.
Proof.
  exact (@submit_issues_one_request start reach_start eq_refl).
Defined.

End FormInvariants.

(* ================================================================== *)
(** * More about the processing notification                            *)
(* ================================================================== *)

Section NotificationTicks.
Import ProcessingNotification.

Lemma ticked_S (n : nat) : ticked (S n) = step (ticked n) Tick.
Proof.
  unfold ticked, run.
  replace (repeat Tick (S n)) with (repeat Tick n ++ [Tick])
    by (symmetry; apply (repeat_cons n Tick)).
  now rewrite fold_left_app.
Qed.

Lemma ticked_timer (n : nat) :
  timer (ticked n) = true /\ isVisible (ticked n) = true.
Proof.
  induction n as [|n [IHt IHv]]; [split; reflexivity|].
  rewrite ticked_S.
  destruct (reachable_invariant (reachable_ticked n)) as (_ & H0 & H100 & Hst & _).
  destruct (onInterval_progress (ticked n) H0 H100) as [Hle _].
  destruct (@afterRender_stage (ticked n) (onInterval (ticked n)) Hst eq_refl Hle)
    as (_ & _ & E3 & E4).
  cbn [step]. rewrite IHt, E3, E4. now split.
Qed.

Lemma ticked_progress (n : nat) :
  progress (ticked (S n)) = JS.min (progress (ticked n) + incrementAmount) 100.
Proof.
  rewrite ticked_S.
  destruct (reachable_invariant (reachable_ticked n)) as (_ & H0 & H100 & Hst & _).
  destruct (onInterval_progress (ticked n) H0 H100) as [Hle _].
  destruct (@afterRender_stage (ticked n) (onInterval (ticked n)) Hst eq_refl Hle)
    as (_ & E2 & _).
  cbn [step]. destruct (ticked_timer n) as [-> _]. exact E2.
Qed.

Lemma progressAfter_add (n k : nat) :
  ProgressBinary64.progressAfter (n + k)
    = Nat.iter k ProgressBinary64.onInterval (ProgressBinary64.progressAfter n).
Proof.
  unfold ProgressBinary64.progressAfter. rewrite Nat.add_comm.
  apply Nat.iter_add.
Qed.

Lemma progressAfter_full (k : nat) :
  Nat.iter k ProgressBinary64.onInterval 100%float = 100%float.
Proof.
  induction k as [|k IH]; [reflexivity|].
  rewrite Nat.iter_succ, IH. vm_compute. reflexivity.
Qed.

Lemma progressAfter_below :
  forallb (fun n => (ProgressBinary64.progressAfter n <? 100)%float)
          (seq 0 240) = true.
Proof. vm_compute. reflexivity. Qed.

(** In binary64 the bar first passes 30 at tick 72, where the rounded sum
    lies just above the exact one, and 75 at tick 181. *)
Example thresholds_binary64 :
  (ProgressBinary64.progressAfter 71 <=? 30)%float = true /\
  (30 <? ProgressBinary64.progressAfter 72)%float = true /\
  (ProgressBinary64.progressAfter 180 <=? 75)%float = true /\
  (75 <? ProgressBinary64.progressAfter 181)%float = true.
Proof. vm_compute. repeat split. Qed.

(** With the binary64 arithmetic of the code, the bar is full from the
    240th tick of an episode on (two minutes at one tick per 500 ms) and
    not before; the increment is 0.41666666666666669. *)
Theorem bar_full_after_two_minutes (n : nat) :
  ((n < 240)%nat ->
   (ProgressBinary64.progressAfter n <? 100)%float = true) /\
  ((240 <= n)%nat -> ProgressBinary64.progressAfter n = 100%float) /\
  ProgressBinary64.incrementAmount = 0x1.aaaaaaaaaaaabp-2%float.
Proof.
  split; [|split].
  - intros Hn. pose proof progressAfter_below as H.
    rewrite forallb_forall in H. apply H. apply in_seq. lia.
  - intros Hn. replace n with (240 + (n - 240))%nat by lia.
    rewrite progressAfter_add.
    replace (ProgressBinary64.progressAfter 240) with 100%float
      by (vm_compute; reflexivity).
    apply progressAfter_full.
  - vm_compute. reflexivity.
Qed.

(** The timer runs exactly while the notification is visible; a hidden
    notification draws nothing and no tick changes it. *)
Theorem hidden_notification_is_idle (s : State) :
  reachable s ->
  timer s = isVisible s /\
  (isVisible s = false ->
   step s Tick = s /\ render s = Hidden /\ progress s = 0 /\ stage s = 0%nat).
Proof.
  intros Hs. destruct (reachable_invariant Hs) as (Ht & _ & _ & _ & Hhid).
  split; [exact Ht|]. intros Hv.
  split; [cbn [step]; now rewrite Ht, Hv|].
  split; [unfold render; now rewrite Hv | now apply Hhid].
Qed.

Lemma hidden_notification_is_idle_witness :
  step (step (ticked 10) (Props false)) Tick = step (ticked 10) (Props false).
Proof.
  apply (proj2 (@hidden_notification_is_idle (step (ticked 10) (Props false))
                  (reach_step (Props false) (reachable_ticked 10)))).
  reflexivity.
Defined.

(** What a visible notification shows follows the progress: the search
    icon and "Extracting..." up to 30, the clock and "Analyzing..." above
    30 up to 75, the check mark and "Finalizing..." above 75, each with the
    progress as the bar value. *)
Theorem shown_text_by_progress (s : State) :
  reachable s -> isVisible s = true ->
  (progress s <= 30 ->
   render s = Card FileSearch (lit "Extracting information from your CV...")
                   (progress s)) /\
  (30 < progress s -> progress s <= 75 ->
   render s = Card Clock (lit "Analyzing against O-1A criteria...")
                   (progress s)) /\
  (75 < progress s ->
   render s = Card CheckCircle (lit "Finalizing assessment...") (progress s)).
Proof.
  intros Hs Hv. destruct (reachable_invariant Hs) as (_ & _ & _ & Hst & _).
  unfold render. rewrite Hv, Hst. cbn [negb].
  destruct (stageOf_cases (progress s)) as [[Hp ->] | [(Hp & Hp' & ->) | [Hp ->]]];
    repeat split; intros; try reflexivity; exfalso; lra.
Qed.

Lemma shown_text_by_progress_witness :
  render (ticked 100)
    = Card Clock (lit "Analyzing against O-1A criteria...") (progress (ticked 100)).
Proof.
  apply (proj1 (proj2 (@shown_text_by_progress (ticked 100)
                         (reachable_ticked 100) eq_refl))).
  - vm_compute. reflexivity.
  - vm_compute. intros H. discriminate H.
Defined.

End NotificationTicks.

(* ================================================================== *)
(** * The analyzer animation                                            *)
(* ================================================================== *)

Section Animation.
Import ResumeAnalyzerAnimation.

Lemma animation_mount (v : bool) : animationInvariant (mount v).
Proof. destruct v; split; cbn; (reflexivity || lia). Qed.

Lemma animation_step (s : State) (e : Event) :
  animationInvariant s -> animationInvariant (step s e).
Proof.
  intros [Ht Hc]. destruct e as [v|]; cbn [step].
  - destruct (Bool.eqb v (isVisible s)); [now split|].
    destruct v; split; cbn; (reflexivity || exact Hc).
  - destruct (timer s) eqn:E; [|split; [congruence | exact Hc]].
    split; [cbn; congruence|].
    cbn [onInterval currentCriteria setCurrentCriteria].
    apply Nat.mod_upper_bound. discriminate.
Qed.

Lemma animation_reachable (s : State) : reachable s -> animationInvariant s.
Proof.
  induction 1 as [v | s e _ IH];
    [apply animation_mount | now apply animation_step].
Qed.

Lemma animation_ticks (n : nat) (s : State) :
  timer s = true ->
  currentCriteria (run s (repeat Tick n)) = ((currentCriteria s + n) mod 6)%nat
    \/ (n = 0)%nat.
Proof.
  revert s. induction n as [|n IH]; intros s Ht; [now right|].
  left. cbn [repeat run fold_left step]. rewrite Ht.
  destruct (IH (onInterval s) Ht) as [E | ->].
  - unfold run in E. rewrite E.
    cbn [onInterval currentCriteria setCurrentCriteria].
    change (List.length criteria) with 6%nat.
    rewrite Nat.Div0.add_mod_idemp_l. f_equal; lia.
  - cbn [repeat fold_left onInterval currentCriteria setCurrentCriteria].
    change (List.length criteria) with 6%nat. f_equal; lia.
Qed.

Lemma animation_hidden_ticks (n : nat) (s : State) :
  timer s = false -> run s (repeat Tick n) = s.
Proof.
  intros Ht. induction n as [|n IH]; [reflexivity|].
  cbn [repeat run fold_left step]. rewrite Ht. exact IH.
Qed.

(** The index is always one of the six rows, and a change of visibility
    never changes it.  While the animation is visible each tick moves the
    highlighted row one down and from the last row back to the first: after
    [n] ticks the index is the old one plus [n], modulo 6.  While it is
    hidden the ticks change nothing, and when it is shown again it goes on
    from the row where it stopped: it does not restart at the first row. *)
Theorem animation_cycles (s : State) (n : nat) :
  reachable s ->
  (currentCriteria s < 6)%nat /\
  (forall v, currentCriteria (step s (Props v)) = currentCriteria s) /\
  (isVisible s = true ->
   currentCriteria (run s (repeat Tick n))
     = ((currentCriteria s + n) mod 6)%nat /\
   run s (repeat Tick 6) = s) /\
  (isVisible s = false ->
   run s (repeat Tick n) = s /\
   currentCriteria (run (step s (Props true)) (repeat Tick n))
     = ((currentCriteria s + n) mod 6)%nat).
Proof.
  intros Hs. destruct (animation_reachable Hs) as [Ht Hc].
  change (List.length criteria) with 6%nat in Hc.
  assert (Hticks : forall s', timer s' = true -> (currentCriteria s' < 6)%nat ->
            currentCriteria (run s' (repeat Tick n))
              = ((currentCriteria s' + n) mod 6)%nat).
  { intros s' Ht' Hc'. destruct (animation_ticks n s' Ht') as [E | ->]; [exact E|].
    cbn [repeat run fold_left]. rewrite Nat.add_0_r.
    symmetry. now apply Nat.mod_small. }
  split; [exact Hc|split; [|split]].
  - intros v. cbn [step].
    destruct (Bool.eqb v (isVisible s)); [reflexivity|].
    destruct v; reflexivity.
  - intros Hv. rewrite Hv in Ht. split; [now apply Hticks|].
    destruct s as [vis c t]. cbn in *. subst vis t.
    do 6 (destruct c as [|c]; [reflexivity|]). lia.
  - intros Hv. rewrite Hv in Ht.
    split; [now apply animation_hidden_ticks|].
    destruct s as [vis c t]. cbn in Hv, Ht, Hc. subst vis t.
    apply (Hticks (step {| isVisible := false; currentCriteria := c;
                           timer := false |} (Props true)));
      [reflexivity | exact Hc].
Qed.

Lemma animation_cycles_witness :
  currentCriteria (run (step pausedAnimation (Props true)) (repeat Tick 5))
    = ((currentCriteria pausedAnimation + 5) mod 6)%nat.
Proof.
  apply (proj2 (proj2 (proj2 (proj2
    (@animation_cycles pausedAnimation 5
       (reach_step (Props false)
          (reach_step Tick (reach_step Tick (reach_mount true)))))))
    eq_refl)).
Defined.

(** What the visible animation lists: the rows before the current one read
    "Analyzed" and carry a status icon, the current row alone is
    highlighted and reads "Analyzing...", the rows after it read "Pending";
    only analyzed rows carry an icon. *)
Theorem animation_rows (s : State) :
  reachable s -> isVisible s = true ->
  exists rows,
    render s = Some rows /\
    map rowLabel rows
      = repeat (lit "Analyzed") (currentCriteria s)
        ++ [lit "Analyzing..."]
        ++ repeat (lit "Pending") (5 - currentCriteria s) /\
    map highlighted rows
      = repeat false (currentCriteria s) ++ [true]
        ++ repeat false (5 - currentCriteria s) /\
    map (fun r => match rowIcon r with Some _ => true | None => false end) rows
      = repeat true (currentCriteria s)
        ++ repeat false (6 - currentCriteria s).
Proof.
  intros Hs Hv. destruct (animation_reachable Hs) as [_ Hc].
  change (List.length criteria) with 6%nat in Hc.
  unfold render. rewrite Hv. cbn [negb].
  eexists. split; [reflexivity|].
  destruct (currentCriteria s) as [|[|[|[|[|[|c]]]]]]; try lia;
    repeat split; reflexivity.
Qed.

Lemma animation_rows_witness :
  option_map (map rowLabel) (render (run (mount true) (repeat Tick 2)))
    = Some [ lit "Analyzed"; lit "Analyzed"; lit "Analyzing...";
             lit "Pending"; lit "Pending"; lit "Pending" ].
Proof.
  destruct (@animation_rows (run (mount true) (repeat Tick 2))
              (reach_step Tick (reach_step Tick (reach_mount true))) eq_refl)
    as (rows & Hr & Hl & _).
  rewrite Hr. cbn [option_map]. rewrite Hl. reflexivity.
Defined.

End Animation.

(* ================================================================== *)
(** * The API status and the criteria catalogue                         *)
(* ================================================================== *)

Section Status.
Import ApiStatus.

Lemma apiStatus_step (w : World) (e : Event) :
  apiStatusInvariant w -> apiStatusInvariant (step w e).
Proof.
  unfold apiStatusInvariant. intros H.
  destruct e as [value | | resp now]; cbn [step].
  - exact H.
  - unfold refreshDisabled.
    destruct (isLoading (ui w)) eqn:El; [now rewrite El|].
    destruct H as [[H _] | (_ & _ & _ & Hq)]; [discriminate|].
    left. cbn. rewrite Hq. repeat split. eexists; reflexivity.
  - destruct H as [(Hl & Hs & req & Hq) | (Hl & Hs & Ht & Hq)]; rewrite Hq.
    + right. cbn [ui inFlight]. unfold checkApiStatusSettled.
      destruct resp as [|c]; [|destruct (UploadForm.ok c)]; cbn;
        repeat split; discriminate.
    + right. rewrite Hq. repeat split; assumption.
Qed.

Lemma apiStatus_reachable (w : World) : reachable w -> apiStatusInvariant w.
Proof.
  induction 1 as [| w e _ IH]; [|now apply apiStatus_step].
  left. cbn. repeat split. eexists; reflexivity.
Qed.

(** The badge reads "Checking..." exactly while a check is running, and
    then exactly one request is in flight; once no check is running the
    badge reads Online or Offline and the time of the last check is known.
    When the request ends, the status is online if the response has a
    success status and offline otherwise (also when the fetch is
    rejected), and the time of the check is recorded. *)
Theorem api_status_consistent (w : World) :
  reachable w ->
  (status (ui w) = checking <-> isLoading (ui w) = true) /\
  (isLoading (ui w) = true <-> List.length (inFlight w) = 1%nat) /\
  (List.length (inFlight w) <= 1)%nat /\
  (isLoading (ui w) = false ->
   lastChecked (ui w) <> None /\ snd (badge (ui w)) <> lit "Checking...") /\
  (isLoading (ui w) = true -> step w RefreshPressed = w) /\
  (forall resp now, inFlight w <> [] ->
     status (ui (step w (Settled resp now)))
       = match resp with
         | Received statusCode =>
             if UploadForm.ok statusCode then online else offline
         | FetchRejected => offline
         end /\
     lastChecked (ui (step w (Settled resp now))) = Some now /\
     isLoading (ui (step w (Settled resp now))) = false).
Proof.
  intros Hw.
  destruct (apiStatus_reachable Hw)
    as [(Hl & Hs & req & Hq) | (Hl & Hs & Ht & Hq)]; rewrite ?Hl, ?Hq.
  - split; [tauto|]. split; [cbn; tauto|]. split; [cbn; lia|].
    split; [discriminate|]. split.
    + intros _. cbn [step]. unfold refreshDisabled. now rewrite Hl.
    + intros resp now _. cbn [step]. rewrite Hq. cbn [ui].
      unfold checkApiStatusSettled.
      destruct resp as [|c]; [|destruct (UploadForm.ok c)]; repeat split.
  - split; [split; [intros H; contradiction | discriminate]|].
    split; [cbn; split; discriminate|]. split; [cbn; lia|].
    split; [|split; [discriminate | intros resp now H; contradiction]].
    intros _. split; [exact Ht|]. unfold badge.
    destruct (status (ui w)); [discriminate | discriminate | contradiction].
Qed.

Lemma api_status_consistent_witness :
  status (ui (step start (Settled (Received 404) (lit "10:15:00")))) = offline /\
  lastChecked (ui (step start (Settled (Received 404) (lit "10:15:00"))))
    = Some (lit "10:15:00").
Proof.
  destruct (proj2 (proj2 (proj2 (proj2 (proj2
              (@api_status_consistent start reach_start)))))
              (Received 404) (lit "10:15:00")) as (Hs & Ht & _).
  - discriminate.
  - split; [exact Hs | exact Ht].
Defined.

End Status.

Section Catalogue.
Import CriteriaInfo.

Lemma criteria_step (w : World) (e : Event) :
  criteriaInvariant w -> criteriaInvariant (step w e).
Proof.
  unfold criteriaInvariant. intros H.
  destruct e as [value | | resp]; cbn [step].
  - exact H.
  - unfold refreshDisabled.
    destruct (isLoading (ui w)) eqn:El; [now rewrite El|].
    destruct H as [[H _] | (_ & Hq)]; [discriminate|].
    left. cbn. rewrite Hq. repeat split. eexists; reflexivity.
  - destruct H as [(Hl & He & req & Hq) | (Hl & Hq)]; rewrite Hq.
    + right. cbn [ui inFlight]. unfold fetchCriteriaSettled.
      destruct resp as [m | c [m | d]]; try destruct (negb (UploadForm.ok c));
        split; reflexivity.
    + right. rewrite Hq. now split.
Qed.

Lemma criteria_reachable (w : World) : reachable w -> criteriaInvariant w.
Proof.
  induction 1 as [| w e _ IH]; [|now apply criteria_step].
  left. cbn. repeat split. eexists; reflexivity.
Qed.

(** When the request for the catalogue ends: a failure (rejected fetch,
    a status that is not a success status, a body that is not JSON) sets
    the error and leaves the catalogue loaded before in place, so that it
    is still listed under the error; a success stores the catalogue and
    leaves no error.  In both cases the loading flag is cleared. *)
Theorem criteria_refresh_outcome (w : World) (resp : Response) :
  reachable w -> inFlight w <> [] ->
  isLoading (ui (step w (Settled resp))) = false /\
  match resp with
  | FetchRejected m =>
      error (ui (step w (Settled resp))) = Some m /\
      criteria (ui (step w (Settled resp))) = criteria (ui w)
  | Received statusCode json =>
      if UploadForm.ok statusCode then
        match json with
        | inl m =>
            error (ui (step w (Settled resp))) = Some m /\
            criteria (ui (step w (Settled resp))) = criteria (ui w)
        | inr data =>
            error (ui (step w (Settled resp))) = None /\
            criteria (ui (step w (Settled resp))) = data
        end
      else
        error (ui (step w (Settled resp)))
          = Some (lit "Failed to fetch criteria: " ++ numberToString statusCode) /\
        criteria (ui (step w (Settled resp))) = criteria (ui w)
  end.
Proof.
  intros Hw Hq.
  destruct (criteria_reachable Hw) as [(Hl & He & req & Hq') | (_ & Hq')];
    [|contradiction].
  cbn [step]. rewrite Hq'. cbn [ui]. unfold fetchCriteriaSettled.
  destruct resp as [m | c [m | d]]; try destruct (UploadForm.ok c);
    cbn; repeat split; exact He.
Qed.

Lemma criteria_refresh_outcome_witness :
  error (ui (step start (Settled (Received 500 (inl (lit ""))))))
    = Some (lit "Failed to fetch criteria: 500") /\
  criteria (ui (step start (Settled (Received 500 (inl (lit "")))))) = None.
Proof.
  destruct (@criteria_refresh_outcome start (Received 500 (inl (lit "")))
              reach_start) as (_ & He & Hc).
  - discriminate.
  - split; [exact He | exact Hc].
Defined.

End Catalogue.

(* ================================================================== *)
(** * The previews                                                      *)
(* ================================================================== *)

Section Previews.
Import ResumePreview.

Lemma mod_succ (n k : nat) :
  (0 < n)%nat ->
  (S k mod n = if (n <=? S (k mod n))%nat then 0 else S (k mod n))%nat.
Proof.
  intros Hn. pose proof (Nat.mod_upper_bound k n ltac:(lia)) as Hlt.
  pose proof (Nat.div_mod_eq k n) as Hk.
  destruct (n <=? S (k mod n))%nat eqn:E.
  - apply Nat.leb_le in E. symmetry.
    apply (Nat.mod_unique (S k) n (S (k / n)) 0); [lia | nia].
  - apply Nat.leb_gt in E. symmetry.
    apply (Nat.mod_unique (S k) n (k / n) (S (k mod n))); [lia | nia].
Qed.

Lemma paragraphAt_counter (n k : nat) :
  (0 < n)%nat -> paragraphAt n (counterAfter n k) = (k mod n)%nat.
Proof.
  intros Hn. induction k as [|k IH].
  - change (counterAfter n 0) with 0%nat. unfold paragraphAt.
    destruct (n <=? 0)%nat eqn:E; [apply Nat.leb_le in E; lia|].
    symmetry. now apply Nat.Div0.mod_0_l.
  - change (counterAfter n (S k)) with (nextIndex n (counterAfter n k)).
    unfold nextIndex. rewrite IH. unfold paragraphAt. now rewrite mod_succ.
Qed.

(** The highlight of the text preview goes through the paragraphs in
    order and starts again at the first after the last: with [n]
    paragraphs the run number [k] of the callback (counted from 0)
    highlights paragraph [k mod n], takes its geometry, and never reads
    past the paragraphs. *)
Theorem paragraph_highlight_cycles
    (paragraphs : list Paragraph) (k : nat) (s : State) :
  paragraphs <> [] ->
  exists p,
    nth_error paragraphs (k mod List.length paragraphs) = Some p /\
    onInterval paragraphs (counterAfter (List.length paragraphs) k) s
      = Some (setHighlightPosition
                {| top := offsetTop p; width := rectWidth p;
                   height := rectHeight p |} s,
              counterAfter (List.length paragraphs) (S k)).
Proof.
  intros Hne.
  assert (Hn : (0 < List.length paragraphs)%nat)
    by (destruct paragraphs; [contradiction | cbn; lia]).
  pose proof (Nat.mod_upper_bound k (List.length paragraphs) ltac:(lia)) as Hlt.
  destruct (nth_error paragraphs (k mod List.length paragraphs)) as [p|] eqn:E.
  - exists p. split; [reflexivity|].
    unfold onInterval. rewrite (paragraphAt_counter k Hn), E. reflexivity.
  - apply nth_error_None in E. lia.
Qed.

Lemma paragraph_highlight_cycles_witness :
  option_map snd
    (onInterval [ {| offsetTop := 0; rectWidth := 300; rectHeight := 18 |};
                  {| offsetTop := 22; rectWidth := 300; rectHeight := 18 |} ]
                (counterAfter 2 5) initial)
    = Some (counterAfter 2 6).
Proof.
  destruct (@paragraph_highlight_cycles
              [ {| offsetTop := 0; rectWidth := 300; rectHeight := 18 |};
                {| offsetTop := 22; rectWidth := 300; rectHeight := 18 |} ]
              5 initial ltac:(discriminate)) as (p & _ & E).
  cbn [List.length] in E. rewrite E. reflexivity.
Defined.

Lemma pop_some (A : Type) (l : list A) : l <> [] -> exists x, pop l = Some x.
Proof.
  induction l as [|x l IH]; [contradiction|]. intros _.
  destruct l as [|y l]; [now exists x|].
  apply IH. discriminate.
Qed.

(** Every file the upload form accepts gets exactly one of the three
    previews: a pdf goes to the PDF viewer, a docx gets the Word
    placeholder and the content "[Word Document Content]", and a txt gets
    the text preview and is the only one handed to the file reader. *)
Theorem preview_for_accepted_file
    (f : UploadForm.File) (isProcessing : bool) (s : State) :
  UploadForm.rejected f = false ->
  (fileType f = Some (lit "pdf") /\
   snd (fileEffect (Some f) s) = None /\
   render (Some f) isProcessing (fst (fileEffect (Some f) s)) = Pdf f isProcessing) \/
  (fileType f = Some (lit "docx") /\
   snd (fileEffect (Some f) s) = None /\
   content (fst (fileEffect (Some f) s)) = lit "[Word Document Content]" /\
   render (Some f) isProcessing (fst (fileEffect (Some f) s)) = WordPlaceholder) \/
  (fileType f = Some (lit "txt") /\
   snd (fileEffect (Some f) s) = Some f /\
   render (Some f) isProcessing (fst (fileEffect (Some f) s))
     = TextPreview (if isProcessing then Some (highlightPosition s) else None)
                   (displayedLines s)).
Proof.
  intros Hacc.
  destruct (pop_some (split_nonempty "." (UploadForm.name f))) as [e He].
  assert (Hext : UploadForm.fileExt f = Some (toLowerCase e))
    by (unfold UploadForm.fileExt; now rewrite He).
  assert (Ht : fileType f = Some (toLowerCase e))
    by (unfold fileType; now rewrite He).
  apply (accepted_iff _ Hext) in Hacc.
  unfold fileEffect. rewrite Ht.
  destruct Hacc as [<- | [<- | [<- | []]]].
  - left. repeat split.
  - right; left. repeat split.
  - right; right. repeat split.
Qed.

Lemma preview_for_accepted_file_witness :
  render (Some (fileNamed "cv.DOCX" "PK")) true
         (fst (fileEffect (Some (fileNamed "cv.DOCX" "PK")) initial))
    = WordPlaceholder.
Proof.
  destruct (@preview_for_accepted_file (fileNamed "cv.DOCX" "PK") true initial
              eq_refl) as [(H & _) | [(_ & _ & _ & H) | (H & _)]].
  - discriminate H.
  - exact H.
  - discriminate H.
Defined.

(** The text preview shows the whole text, one paragraph per line: after
    the reader has delivered [text] there is one paragraph more than there
    are newlines, no paragraph is empty (an empty line is shown as a
    space) or contains a newline, and when the text has no empty line the
    paragraphs joined by newlines are the text. *)
Theorem preview_lines (text : str) (s : State) :
  content (onload (Some text) s) = text /\
  List.length (displayedLines (onload (Some text) s))
    = S (count_occ ascii_dec text newline) /\
  Forall (fun line => line <> [] /\ ~ In newline line)
         (displayedLines (onload (Some text) s)) /\
  (Forall (fun line => line <> []) (split newline text) ->
   join newline (displayedLines (onload (Some text) s)) = text).
Proof.
  assert (E : content (onload (Some text) s) = text).
  { unfold onload, orElse. cbn [content setContent].
    destruct text; reflexivity. }
  destruct (split_spec newline text) as (Hj & Hl & Hf).
  unfold displayedLines. rewrite E.
  split; [reflexivity|]. split; [now rewrite length_map|]. split.
  - apply Forall_map. eapply Forall_impl; [|exact Hf].
    intros line Hline. destruct line as [|c line]; cbn [truthy].
    + split; [discriminate|]. intros [H | []]. discriminate H.
    + split; [discriminate | exact Hline].
  - intros Hne. rewrite <- Hj at 2. f_equal.
    rewrite <- (map_id (split newline text)) at 2.
    apply map_ext_in. intros line Hin.
    rewrite Forall_forall in Hne. specialize (Hne line Hin).
    destruct line; [contradiction | reflexivity].
Qed.

End Previews.

Section PdfHighlight.
Import PDFViewer.

(** The highlight over a PDF: with a frame at least 40 high and 200 wide it
    starts inside the frame, is 150 to 350 wide and 15 to 35 high, ends at
    least 5 above the lower edge, and may reach up to 150 beyond the right
    edge.  Without a frame the highlight stays as it is. *)
Theorem pdf_highlight_bounds
    (iframeHeight iframeWidth r1 r2 r3 r4 : Q) (current : Highlight) :
  0 <= r1 < 1 -> 0 <= r2 < 1 -> 0 <= r3 < 1 -> 0 <= r4 < 1 ->
  40 <= iframeHeight -> 200 <= iframeWidth ->
  0 <= top (onInterval (Some (iframeHeight, iframeWidth)) r1 r2 r3 r4 current) /\
  top (onInterval (Some (iframeHeight, iframeWidth)) r1 r2 r3 r4 current)
  + height (onInterval (Some (iframeHeight, iframeWidth)) r1 r2 r3 r4 current)
    <= iframeHeight - 5 /\
  0 <= left (onInterval (Some (iframeHeight, iframeWidth)) r1 r2 r3 r4 current) /\
  left (onInterval (Some (iframeHeight, iframeWidth)) r1 r2 r3 r4 current)
    <= iframeWidth - 200 /\
  150 <= width (onInterval (Some (iframeHeight, iframeWidth)) r1 r2 r3 r4 current) /\
  width (onInterval (Some (iframeHeight, iframeWidth)) r1 r2 r3 r4 current) <= 350 /\
  15 <= height (onInterval (Some (iframeHeight, iframeWidth)) r1 r2 r3 r4 current) /\
  height (onInterval (Some (iframeHeight, iframeWidth)) r1 r2 r3 r4 current) <= 35 /\
  left (onInterval (Some (iframeHeight, iframeWidth)) r1 r2 r3 r4 current)
  + width (onInterval (Some (iframeHeight, iframeWidth)) r1 r2 r3 r4 current)
    <= iframeWidth + 150 /\
  onInterval None r1 r2 r3 r4 current = current.
Proof.
  intros [H1 H1'] [H2 H2'] [H3 H3'] [H4 H4'] HH HW.
  cbn [onInterval top left width height].
  repeat split; try nra; reflexivity.
Qed.

Lemma pdf_highlight_bounds_witness :
  top (onInterval (Some (500, 640)) (1 # 2) (9 # 10) (3 # 4) 0 initialHighlight)
  + height (onInterval (Some (500, 640)) (1 # 2) (9 # 10) (3 # 4) 0 initialHighlight)
    <= 500 - 5.
Proof.
  apply (@pdf_highlight_bounds 500 640 (1 # 2) (9 # 10) (3 # 4) 0 initialHighlight);
    try (split; [discriminate | reflexivity]); discriminate.
Defined.

(** The highlight can stick out of the frame on the right. *)
Example pdf_highlight_overflow :
  640 < left (onInterval (Some (500, 640)) 0 (9 # 10) (9 # 10) 0 initialHighlight)
        + width (onInterval (Some (500, 640)) 0 (9 # 10) (9 # 10) 0 initialHighlight).
Proof. reflexivity. Qed.

End PdfHighlight.
